(** * pxng front end: chat message pipeline, source rendering and routing

    A shallow embedding of the React components [ChatInterface] and [App]
    of the pxng single-page application, together with the properties of
    the chat pipeline (history fetch, dual-mode send), of the RAG source
    list rendering and of the route table.

    Conventions.
    - A JavaScript string is the list of its UTF-16 code units.
    - A JavaScript number produced by date arithmetic is [option Z], where
      [None] stands for NaN.
    - The [useState] cells of a component are fields of a record; an event
      handler reads the values captured by the render that created it and
      writes through the setters.
    - [await axios...] is a call to the backend that either resolves with
      data or rejects; a rejection, like any exception, unwinds to the
      enclosing [try ... catch]. *)

From Stdlib Require Import List ZArith NArith Bool Lia String Ascii.
From Stdlib Require Import Sorted Permutation DecimalString.
From Stdlib Require DecimalZ.
Import ListNotations.

Set Implicit Arguments.

(* ================================================================== *)
(** ** JavaScript strings *)

Module JsString.

(** A string is a sequence of UTF-16 code units. *)
Definition t := list N.

(** String literal of the source, written with a Rocq string. *)
Definition lit (s : string) : t := map N_of_ascii (list_ascii_of_string s).

(** Strict equality [===] on strings. *)
Fixpoint eqb (a b : t) : bool :=
  match a, b with
  | [], [] => true
  | x :: a', y :: b' => N.eqb x y && eqb a' b'
  | _, _ => false
  end.

(** ECMAScript WhiteSpace and LineTerminator code points, the characters
    removed by [String.prototype.trim]: TAB, LF, VT, FF, CR, SP, NBSP,
    U+1680, U+2000..U+200A, LS, PS, U+202F, U+205F, U+3000, U+FEFF. *)
Definition isWhiteSpace (c : N) : bool :=
  existsb (N.eqb c)
    [9; 10; 11; 12; 13; 32; 160; 5760; 8232; 8233; 8239; 8287; 12288; 65279]%N
  || (N.leb 8192 c && N.leb c 8202).

Fixpoint trimStart (s : t) : t :=
  match s with
  | [] => []
  | c :: s' => if isWhiteSpace c then trimStart s' else s
  end.

Definition trimEnd (s : t) : t := rev (trimStart (rev s)).

(** [s.trim()] *)
Definition trim (s : t) : t := trimEnd (trimStart s).

(** Truthiness of a string: only the empty string is falsy. *)
Definition truthy (s : t) : bool :=
  match s with [] => false | _ :: _ => true end.

(** Decimal rendering of an integral number, as in a template literal. *)
Definition ofZ (z : Z) : t := lit (NilZero.string_of_int (Z.to_int z)).

(** A string made of white space only (possibly empty). *)
Definition blank (s : t) : bool := forallb isWhiteSpace s.

End JsString.

Definition jsstring : Type := JsString.t.
Notation "` s" := (JsString.lit s) (at level 1, format "` s").

(* ================================================================== *)
(** ** Dates *)

(** The time value of a [Date] object in milliseconds since the epoch;
    [None] is the time value NaN of an Invalid Date. *)
Definition Date := option Z.

(** [a - b] on two dates: the difference of the time values, NaN as soon
    as one of them is invalid. *)
Definition date_sub (a b : Date) : option Z :=
  match a, b with
  | Some x, Some y => Some (x - y)%Z
  | _, _ => None
  end.

(** [a <= b] on instants; as in JavaScript no comparison with NaN holds. *)
Definition date_le (a b : Date) : Prop :=
  match a, b with
  | Some x, Some y => (x <= y)%Z
  | _, _ => False
  end.

(* ================================================================== *)
(** ** Array.prototype.sort *)

Section ArraySort.

Variable A : Type.

(** The compare function returns a JavaScript number. *)
Variable comparefn : A -> A -> option Z.

(** SortCompare of ECMA-262: a NaN result counts as +0. *)
Definition SortCompare (x y : A) : Z :=
  match comparefn x y with
  | Some v => v
  | None => 0%Z
  end.

(** Insertion of [x], which precedes every element of [l] in the input:
    [x] stays in front of the elements it does not exceed. *)
Fixpoint sort_insert (x : A) (l : list A) : list A :=
  match l with
  | [] => [x]
  | y :: l' =>
      if (SortCompare x y <=? 0)%Z then x :: y :: l'
      else y :: sort_insert x l'
  end.

(** [arr.sort(comparefn)]: the sort is stable (ES2019), so with a
    consistent compare function its result is the one stable sorted
    arrangement of the input, whatever the algorithm of the engine; it
    is computed here by insertion.  With an inconsistent compare
    function (NaN results) the order is implementation-defined. *)
Fixpoint array_sort (l : list A) : list A :=
  match l with
  | [] => []
  | x :: l' => sort_insert x (array_sort l')
  end.

End ArraySort.

(* ================================================================== *)
(** ** Data model *)

(** A retrieval source attached to a RAG answer.  The fields other than
    [type] are read only for the matching [type] and may be absent. *)
Module Source.
Record t := mk {
  type : jsstring;
  sender_id : option jsstring;
  document_name : option jsstring;
  chunk_index : option Z
}.
End Source.

(** A chat message, as returned by the backend or built by [sendMessage].
    [timestamp] holds [new Date(message.timestamp)]. *)
Module Message.
Record t := mk {
  id : jsstring;
  content : jsstring;
  sender_id : jsstring;
  recipient_id : jsstring;
  timestamp : Date;
  sender_name : option jsstring;
  sources : option (list Source.t)
}.
End Message.

Module User.
Record t := mk { id : jsstring }.
End User.

Module Recipient.
Record t := mk { id : jsstring; name : jsstring }.
End Recipient.

(** The props of [ChatInterface].  [recipient] and [recipientType] may be
    null: the component itself guards on them before fetching. *)
Record Props := {
  currentUser : User.t;
  recipient : option Recipient.t;
  recipientType : option jsstring
}.

(** The [useState] cells of [ChatInterface]. *)
Record State := {
  messages : list Message.t;
  newMessage : jsstring;
  loading : bool;
  queryMode : bool
}.

Definition initialState : State :=
  {| messages := []; newMessage := []; loading := false; queryMode := false |}.

(* ================================================================== *)
(** ** The world of a handler: backend, clock, local storage, log *)

(** The three requests of the chat pipeline with what they carry. *)
Inductive Request :=
| GetMessages (recipient_id : jsstring) (recipient_type : option jsstring)
              (authorization : jsstring)
| PostRagQuery (query : jsstring) (authorization : jsstring)
| PostMessage (content recipient_id : jsstring)
              (recipient_type : option jsstring) (authorization : jsstring).

(** [response.data] of the RAG endpoint. *)
Record RagData := { answer : jsstring; rag_sources : option (list Source.t) }.

(** The backend: for each endpoint the data the promise resolves with,
    or [None] when the promise rejects (network or server error). *)
Record Backend := {
  get_api_messages : Request -> option (list Message.t);
  post_api_rag_query : Request -> option RagData;
  post_api_messages : Request -> option Message.t
}.

(** What a handler receives from outside: the backend and the successive
    readings of the system clock. *)
Record Env := {
  backend : Backend;
  clock : nat -> Z
}.

Inductive Effect :=
| PreventDefault
| Http (r : Request)
| ConsoleError (label : jsstring).

Inductive Exn :=
| TypeError
| RequestError.

(** Everything a handler can change. *)
Record World := {
  state : State;
  token : option jsstring;      (* localStorage.getItem('token') *)
  ticks : nat;                  (* clock readings taken so far *)
  log : list Effect             (* observable effects, oldest first *)
}.

Inductive Result (A : Type) :=
| Ok (a : A)
| Throw (e : Exn).
Arguments Ok {A} a.
Arguments Throw {A} e.

(** Computations of a handler body: state passing with exceptions. *)
Definition M (A : Type) : Type := World -> Result A * World.

Definition ret {A} (a : A) : M A := fun w => (Ok a, w).

Definition bind {A B} (c : M A) (k : A -> M B) : M B :=
  fun w =>
    match c w with
    | (Ok a, w') => k a w'
    | (Throw e, w') => (Throw e, w')
    end.

Definition throw {A} (e : Exn) : M A := fun w => (Throw e, w).

(** [try { body } catch (error) { handler }] *)
Definition try_catch {A} (body : M A) (handler : Exn -> M A) : M A :=
  fun w =>
    match body w with
    | (Ok a, w') => (Ok a, w')
    | (Throw e, w') => handler e w'
    end.

Notation "x <- c ;; k" := (bind c (fun x => k))
  (at level 61, c at next level, right associativity).
Notation "c ;; k" := (bind c (fun _ => k))
  (at level 61, right associativity).

Definition modify_state (f : State -> State) : M unit :=
  fun w => (Ok tt, {| state := f (state w); token := token w;
                      ticks := ticks w; log := log w |}).

Definition emit (e : Effect) : M unit :=
  fun w => (Ok tt, {| state := state w; token := token w;
                      ticks := ticks w; log := log w ++ [e] |}).

Definition setMessages (l : list Message.t) : M unit :=
  modify_state (fun s => {| messages := l; newMessage := newMessage s;
                            loading := loading s; queryMode := queryMode s |}).

Definition setNewMessage (v : jsstring) : M unit :=
  modify_state (fun s => {| messages := messages s; newMessage := v;
                            loading := loading s; queryMode := queryMode s |}).

Definition setLoading (b : bool) : M unit :=
  modify_state (fun s => {| messages := messages s; newMessage := newMessage s;
                            loading := b; queryMode := queryMode s |}).

Definition setQueryMode (b : bool) : M unit :=
  modify_state (fun s => {| messages := messages s; newMessage := newMessage s;
                            loading := loading s; queryMode := b |}).

Definition console_error (label : jsstring) : M unit := emit (ConsoleError label).

(** [`Bearer ${localStorage.getItem('token')}`]: a missing item is [null],
    printed as the text null. *)
Definition bearer (tok : option jsstring) : jsstring :=
  `"Bearer " ++ match tok with
                | Some t => t
                | None => `"null"
                end.

Definition authorization_header : M jsstring :=
  fun w => (Ok (bearer (token w)), w).

(** One reading of the system clock ([Date.now()], [new Date()]). *)
Definition Date_now (env : Env) : M Z :=
  fun w => (Ok (clock env (ticks w)),
            {| state := state w; token := token w;
               ticks := S (ticks w); log := log w |}).

(** Property access [o.id] on a possibly null object. *)
Definition deref {A} (o : option A) : M A :=
  match o with
  | Some a => ret a
  | None => throw TypeError
  end.

(** [await axios...]: the request is issued, then the promise settles. *)
Definition axios {A} (endpoint : Request -> option A) (r : Request) : M A :=
  emit (Http r) ;;
  match endpoint r with
  | Some data => ret data
  | None => throw RequestError
  end.

(* ================================================================== *)
(** ** ChatInterface: the handlers *)

(** The compare function of [fetchMessages]:
    [(a, b) => new Date(a.timestamp) - new Date(b.timestamp)]. *)
Definition byTimestamp (a b : Message.t) : option Z :=
  date_sub (Message.timestamp a) (Message.timestamp b).

Section ChatInterface.

Variable env : Env.
Variable props : Props.

(** The state cells as captured by the render that created the
    handlers: [messages], [newMessage] and [queryMode] below are these
    constants of the closure, not the cells being written. *)
Variable render : State.

(** The body of the [try] block of [fetchMessages]. *)
Definition fetchAttempt : M unit :=
  setLoading true ;;
  r <- deref (recipient props) ;;
  auth <- authorization_header ;;
  response <- axios (get_api_messages (backend env))
                (GetMessages (Recipient.id r) (recipientType props) auth) ;;
  (* Sort messages by timestamp *)
  let sortedMessages := array_sort byTimestamp response in
  setMessages sortedMessages ;;
  setLoading false.

Definition fetchMessages : M unit :=
  try_catch fetchAttempt
    (fun error =>
       console_error `"Error fetching messages:" ;;
       setLoading false).

(** The effect run on mount and when [recipient] or [recipientType]
    changes: [if (recipient && recipientType) fetchMessages()]. *)
Definition recipientEffect : M unit :=
  match recipient props, recipientType props with
  | Some _, Some ty => if JsString.truthy ty then fetchMessages else ret tt
  | _, _ => ret tt
  end.

(** The two branches inside the [try] block of [sendMessage]. *)
Definition sendQuery : M unit :=
  auth <- authorization_header ;;
  response <- axios (post_api_rag_query (backend env))
                (PostRagQuery (newMessage render) auth) ;;
  (* Add user query to messages *)
  now0 <- Date_now env ;;
  r0 <- deref (recipient props) ;;
  now1 <- Date_now env ;;
  let userQuery :=
    {| Message.id := `"temp-" ++ JsString.ofZ now0;
       Message.content := newMessage render;
       Message.sender_id := User.id (currentUser props);
       Message.recipient_id := Recipient.id r0;
       Message.timestamp := Some now1;
       Message.sender_name := None;
       Message.sources := None |} in
  (* Add RAG response to messages *)
  now2 <- Date_now env ;;
  r1 <- deref (recipient props) ;;
  now3 <- Date_now env ;;
  let ragResponse :=
    {| Message.id := `"rag-" ++ JsString.ofZ now2;
       Message.content := answer response;
       Message.sender_id := `"rag-assistant";
       Message.recipient_id := Recipient.id r1;
       Message.timestamp := Some now3;
       Message.sender_name := None;
       Message.sources := rag_sources response |} in
  setMessages (messages render ++ [userQuery; ragResponse]).

Definition sendDirect : M unit :=
  r <- deref (recipient props) ;;
  auth <- authorization_header ;;
  response <- axios (post_api_messages (backend env))
                (PostMessage (newMessage render) (Recipient.id r)
                             (recipientType props) auth) ;;
  (* Add new message to the list *)
  setMessages (messages render ++ [response]).

(** The body of the [try] block of [sendMessage]. *)
Definition sendAttempt : M unit :=
  setLoading true ;;
  (if queryMode render then sendQuery else sendDirect) ;;
  (* Clear input *)
  setNewMessage [] ;;
  setLoading false.

Definition sendMessage : M unit :=
  emit PreventDefault ;;
  if negb (JsString.truthy (JsString.trim (newMessage render))) then ret tt
  else
    try_catch sendAttempt
      (fun error =>
         console_error `"Error sending message:" ;;
         setLoading false).

End ChatInterface.

(** A handler fired from the render of the current state: the closure
    holds the cells as they are in the world. *)
Definition onLoad (env : Env) (props : Props) (w : World) : World :=
  snd (recipientEffect env props w).

Definition onSubmit (env : Env) (props : Props) (w : World) : World :=
  snd (sendMessage env props (state w) w).

(** The requests recorded in a log. *)
Definition requests (l : list Effect) : list Request :=
  flat_map (fun e => match e with Http r => [r] | _ => [] end) l.

(* ================================================================== *)
(** ** ChatInterface: the source list of a RAG answer *)

(** A list item of the rendered source list: its React key, its class
    and its text content. *)
Record li := {
  key : option nat;
  className : option jsstring;
  text : jsstring
}.

(** A missing ([undefined]) child renders as nothing. *)
Definition textOf (v : option jsstring) : jsstring :=
  match v with
  | Some s => s
  | None => []
  end.

(** A number child, printed in decimal as JavaScript prints an integral
    number below 1e21 in magnitude, which chunk indexes are. *)
Definition numberOf (v : option Z) : jsstring :=
  match v with
  | Some z => JsString.ofZ z
  | None => []
  end.

(** The text of one itemized source: the conditional on [source.type]. *)
Definition renderSource (source : Source.t) : jsstring :=
  if JsString.eqb (Source.type source) `"message" then
    `"Message from " ++ textOf (Source.sender_id source)
  else if JsString.eqb (Source.type source) `"document_chunk" then
    textOf (Source.document_name source) ++ `" (chunk "
      ++ numberOf (Source.chunk_index source) ++ `")"
  else
    `"Unknown source".

(** [arr.map((x, idx) => f x idx)] *)
Fixpoint map_idx {A B : Type} (f : A -> nat -> B) (idx : nat) (l : list A) : list B :=
  match l with
  | [] => []
  | x :: l' => f x idx :: map_idx f (S idx) l'
  end.

(** The children of the [<ul>]: [sources.slice(0, 3).map(...)] followed
    by the summary item when [sources.length > 3]. *)
Definition renderSourceList (sources : list Source.t) : list li :=
  map_idx (fun source idx =>
             {| key := Some idx; className := Some `"truncate";
                text := renderSource source |})
          0 (firstn 3 sources)
  ++ (if (3 <? List.length sources)%nat
      then [{| key := None; className := None;
               text := `"+" ++ JsString.ofZ (Z.of_nat (List.length sources) - 3)
                        ++ `" more sources" |}]
      else []).

(** The sources block of a message bubble:
    [message.sender_id === 'rag-assistant' && message.sources && (...)];
    [None] when nothing is rendered. *)
Definition renderSources (message : Message.t) : option (list li) :=
  if JsString.eqb (Message.sender_id message) `"rag-assistant" then
    match Message.sources message with
    | Some sources => Some (renderSourceList sources)
    | None => None
    end
  else None.
(* ================================================================== *)
(** ** App: the route table *)

Module Router.

(** The elements the route table of [App] mentions. *)
Inductive Element :=
| LoginPage
| SignupPage
| Dashboard
| CreateGroupPage
| GroupPage
| CreateCommunityPage
| CommunityPage
| Layout
| Navigate (to : jsstring) (replace : bool)
| Protected (children : Element).     (* <ProtectedRoute>...</ProtectedRoute> *)

(** [<Route path=... index element=...> children </Route>] *)
#[local] Unset Elimination Schemes.
Inductive RouteObject :=
| Route (path : option jsstring) (index : bool) (element : Element)
        (children : list RouteObject).
#[local] Set Elimination Schemes.

(** The [<Routes>] of [App], in source order. *)
Definition App : list RouteObject :=
  [ (* Public routes *)
    Route (Some `"/login") false LoginPage [];
    Route (Some `"/signup") false SignupPage [];
    (* Protected routes *)
    Route (Some `"/") false (Protected Layout)
      [ Route None true (Navigate `"/dashboard" true) [];
        Route (Some `"dashboard") false Dashboard [];
        Route (Some `"groups/create") false CreateGroupPage [];
        Route (Some `"groups/:groupId") false GroupPage [];
        Route (Some `"communities/create") false CreateCommunityPage [];
        Route (Some `"communities/:communityId") false CommunityPage [] ];
    (* Fallback route *)
    Route (Some `"*") false (Navigate `"/dashboard" true) [] ].

(** *** Route matching of react-router v6

    The library is not part of the repository; what follows is its
    matching algorithm ([matchRoutes]): the route tree is flattened
    into branches, the branches are ranked by score, and the first
    branch whose path pattern matches the pathname is selected. *)

Definition slash : N := 47.
Definition colon : N := 58.
Definition star : N := 42.

(** [s.split("/")] *)
Fixpoint split (s : jsstring) : list jsstring :=
  match s with
  | [] => [[]]
  | c :: s' =>
      if N.eqb c slash then [] :: split s'
      else match split s' with
           | [] => [[c]]
           | part :: parts => (c :: part) :: parts
           end
  end.

Definition isEmpty (s : jsstring) : bool := negb (JsString.truthy s).

Definition startsWithSlash (s : jsstring) : bool :=
  match s with
  | c :: _ => N.eqb c slash
  | [] => false
  end.

Definition endsWithStar (s : jsstring) : bool :=
  match rev s with
  | c :: _ => N.eqb c star
  | [] => false
  end.

(** [s.replace(/\/\/+/g, "/")] *)
Fixpoint collapseSlashes (s : jsstring) : jsstring :=
  match s with
  | [] => []
  | c :: s' =>
      if N.eqb c slash && startsWithSlash s' then collapseSlashes s'
      else c :: collapseSlashes s'
  end.

Definition joinPaths (a b : jsstring) : jsstring :=
  collapseSlashes (a ++ [slash] ++ b).

Record RouteMeta := {
  relativePath : jsstring;
  childrenIndex : nat;
  route : RouteObject
}.

Record RouteBranch := {
  path : jsstring;
  score : Z;
  routesMeta : list RouteMeta
}.

(** [\w] or a dash, the characters of a parameter name. *)
Definition isNameChar (c : N) : bool :=
  (N.leb 48 c && N.leb c 57) || (N.leb 65 c && N.leb c 90)
  || (N.leb 97 c && N.leb c 122) || N.eqb c 95 || N.eqb c 45.

(** [/^:[\w-]+$/.test(s)] *)
Definition isParam (s : jsstring) : bool :=
  match s with
  | c :: (_ :: _) as name => N.eqb c colon && forallb isNameChar name
  | _ => false
  end.

Definition isSplat (s : jsstring) : bool := JsString.eqb s [star].

(** [computeScore]: static segments weigh 10, parameters 3, empty
    segments 1, an index route adds 2 and a splat costs 2. *)
Definition computeScore (p : jsstring) (index : bool) : Z :=
  let segments := split p in
  let initialScore :=
    (Z.of_nat (List.length segments)
     + (if existsb isSplat segments then -2 else 0)
     + (if index then 2 else 0))%Z in
  fold_left
    (fun sc segment =>
       (sc + (if isParam segment then 3
              else if isEmpty segment then 1 else 10))%Z)
    (filter (fun s => negb (isSplat s)) segments)
    initialScore.

(** [flattenRoutes]: the branches of the children come before the
    branch of the route itself; a route with neither path nor index
    is no branch of its own. *)
Fixpoint flattenRoute (parentsMeta : list RouteMeta) (parentPath : jsstring)
         (index : nat) (r : RouteObject) : list RouteBranch :=
  match r with
  | Route p isIndex _ children =>
      let rel := match p with Some s => s | None => [] end in
      let rel := if startsWithSlash rel
                 then skipn (List.length parentPath) rel else rel in
      let full := joinPaths parentPath rel in
      let metas := parentsMeta ++
        [{| relativePath := rel; childrenIndex := index; route := r |}] in
      (fix flattenChildren (i : nat) (rs : list RouteObject) : list RouteBranch :=
         match rs with
         | [] => []
         | c :: rs' => flattenRoute metas full i c ++ flattenChildren (S i) rs'
         end) 0%nat children
      ++ match p, isIndex with
         | None, false => []
         | _, _ => [{| path := full; score := computeScore full isIndex;
                       routesMeta := metas |}]
         end
  end.

Fixpoint flattenRoutesFrom (i : nat) (rs : list RouteObject) : list RouteBranch :=
  match rs with
  | [] => []
  | r :: rs' => flattenRoute [] [] i r ++ flattenRoutesFrom (S i) rs'
  end.

Definition flattenRoutes (rs : list RouteObject) : list RouteBranch :=
  flattenRoutesFrom 0 rs.

(** [compareIndexes]: siblings keep their source order, other branches
    compare equal. *)
Fixpoint compareIndexes (a b : list nat) : Z :=
  match a, b with
  | [x], [y] => (Z.of_nat x - Z.of_nat y)%Z
  | x :: a', y :: b' => if Nat.eqb x y then compareIndexes a' b' else 0%Z
  | _, _ => 0%Z
  end.

(** [rankRouteBranches]: higher score first. *)
Definition rankCompare (a b : RouteBranch) : option Z :=
  if Z.eqb (score a) (score b)
  then Some (compareIndexes (map childrenIndex (routesMeta a))
                            (map childrenIndex (routesMeta b)))
  else Some (score b - score a)%Z.

Definition rankRouteBranches (bs : list RouteBranch) : list RouteBranch :=
  array_sort rankCompare bs.

(** A compiled path pattern: its segments, and whether it ends with a
    splat. *)
Inductive Segment :=
| Static (s : jsstring)
| Param (name : jsstring).

Record Pattern := {
  segments : list Segment;
  splat : bool
}.

Definition compilePath (p : jsstring) : Pattern :=
  let body := if endsWithStar p then removelast p else p in
  {| segments :=
       map (fun s => if isParam s then Param (tl s) else Static s)
           (filter (fun s => negb (isEmpty s)) (split body));
     splat := endsWithStar p |}.

(** Patterns are matched without regard to case. *)
Definition toLowerCase (s : jsstring) : jsstring :=
  map (fun c => if N.leb 65 c && N.leb c 90 then (c + 32)%N else c) s.

Definition matchSegment (seg : Segment) (part : jsstring) : bool :=
  match seg with
  | Static s => JsString.eqb (toLowerCase s) (toLowerCase part)
  | Param _ => negb (isEmpty part)
  end.

(** The line terminators of ECMAScript (LF, CR, LS, PS), which the dot
    of a regular expression does not match. *)
Definition isLineTerminator (c : N) : bool :=
  N.eqb c 10 || N.eqb c 13 || N.eqb c 8232 || N.eqb c 8233.

Definition noLineTerminator (s : jsstring) : bool :=
  forallb (fun c => negb (isLineTerminator c)) s.

(** The parts of the pathname after its leading slash against the
    segments: one part per segment, then only trailing slashes, or,
    under a splat, anything that holds no line terminator (the splat
    compiles to a dotted group). *)
Fixpoint matchSegments (segs : list Segment) (rest : bool)
         (parts : list jsstring) : bool :=
  match segs, parts with
  | [], _ => (rest && forallb noLineTerminator parts) || forallb isEmpty parts
  | seg :: segs', part :: parts' =>
      matchSegment seg part && matchSegments segs' rest parts'
  | _ :: _, [] => false
  end.

(** [matchPath({ path: pattern, end: true }, pathname)] as a test. *)
Definition matchPath (pattern pathname : jsstring) : bool :=
  let c := compilePath pattern in
  match split pathname with
  | [] :: (_ :: _) as parts => matchSegments (segments c) (splat c) parts
  | _ => false
  end.

(** [matchRoutes(routes, pathname)]: the chain of routes of the first
    matching branch in rank order, [None] when no branch matches.  The
    pathname is the decoded pathname of the location; every route of
    [App] below the root hangs under the path "/", so a branch matches
    when its full path pattern matches the whole pathname. *)
Definition matchRoutes (rs : list RouteObject) (pathname : jsstring)
  : option (list RouteMeta) :=
  option_map routesMeta
    (find (fun b => matchPath (path b) pathname)
          (rankRouteBranches (flattenRoutes rs))).

Definition elementOf (r : RouteObject) : Element :=
  match r with Route _ _ e _ => e end.

(** The elements of the matched chain, outermost first; the last one
    is the element of the route the pathname resolves to. *)
Definition matchedElements (pathname : jsstring) : option (list Element) :=
  option_map (map (fun m => elementOf (route m))) (matchRoutes App pathname).

Definition resolve (pathname : jsstring) : option Element :=
  match matchedElements pathname with
  | Some chain => last (map Some chain) None
  | None => None
  end.

(** The innermost element of a branch. *)
Definition leafOf (b : RouteBranch) : option Element :=
  last (map Some (map (fun m => elementOf (route m)) (routesMeta b))) None.

(** The path patterns of the table that lead to a page. *)
Definition pagePatterns : list (jsstring * Element) :=
  [ (`"/login", LoginPage);
    (`"/signup", SignupPage);
    (`"/dashboard", Dashboard);
    (`"/groups/create", CreateGroupPage);
    (`"/groups/:groupId", GroupPage);
    (`"/communities/create", CreateCommunityPage);
    (`"/communities/:communityId", CommunityPage) ].

(** The targets of the links in the sidebar of [Layout]. *)
Definition Layout_links : list jsstring :=
  [ `"/dashboard"; `"/groups"; `"/communities"; `"/profile";
    `"/create/group"; `"/create/community" ].

(** *** The session guard *)

(** What a component hands back to the router. *)
Inductive Rendered :=
| Redirect (to : jsstring)
| Content (children : Element).

(** Modelled from the spec: [ProtectedRoute] (pages/auth/ProtectedRoute),
    which [App] imports and whose source is not available.  Given the
    session token read at render time it redirects to the login view
    when the token is absent or empty and renders the protected content
    otherwise; it mutates nothing and throws nothing. *)
Definition ProtectedRoute (token : option jsstring) (children : Element)
  : Rendered :=
  match token with
  | Some (_ :: _) => Content children
  | _ => Redirect `"/login"
  end.

End Router.

(* ================================================================== *)
(** ** ChatInterface: the rest of the component *)

(** The checkbox of the header: [onChange={() => setQueryMode(!queryMode)}],
    with [queryMode] the value captured by the render. *)
Definition toggleQueryMode (render : State) : M unit :=
  setQueryMode (negb (queryMode render)).

(** The text input: [onChange={(e) => setNewMessage(e.target.value)}]. *)
Definition changeMessage (value : jsstring) : M unit :=
  setNewMessage value.

(** [v || d] on an optional string: [undefined] and the empty string are
    falsy. *)
Definition orElse (v : option jsstring) (d : jsstring) : jsstring :=
  match v with
  | Some (c :: s) => c :: s
  | _ => d
  end.

(** One message bubble: the class that aligns its row, the class that
    colours it, the sender label when there is one, the content and the
    sources block.  The time of day under the content is formatted by
    the locale of the browser and is left out. *)
Record Bubble := {
  rowClass : jsstring;
  bubbleClass : jsstring;
  senderLabel : option jsstring;
  body : jsstring;
  sourcesBlock : option (list li)
}.

(** The body of [messages.map((message) => ...)]. *)
Definition renderMessage (props : Props) (message : Message.t) : Bubble :=
  let own := JsString.eqb (Message.sender_id message) (User.id (currentUser props)) in
  let rag := JsString.eqb (Message.sender_id message) `"rag-assistant" in
  {| rowClass := if own then `"justify-end" else `"justify-start";
     bubbleClass :=
       if own then `"bg-blue-500 text-white"
       else if rag then `"bg-green-100 border border-green-300"
       else `"bg-gray-100";
     senderLabel :=
       if negb own && negb rag
       then Some (orElse (Message.sender_name message) `"User")
       else None;
     body := Message.content message;
     sourcesBlock := renderSources message |}.

(** The messages pane: the placeholder while loading with an empty
    store, the list of bubbles otherwise. *)
Inductive Pane :=
| LoadingMessages
| MessageList (bubbles : list Bubble).

Definition renderPane (props : Props) (s : State) : Pane :=
  if loading s && (List.length (messages s) =? 0)%nat
  then LoadingMessages
  else MessageList (map (renderMessage props) (messages s)).

(** The form under the pane. *)
Record Form := {
  value : jsstring;
  placeholder : jsstring;
  submitLabel : jsstring;
  disabled : bool
}.

Definition renderForm (s : State) : Form :=
  {| value := newMessage s;
     placeholder := if queryMode s then `"Ask a question..." else `"Type a message...";
     submitLabel := if queryMode s then `"Ask" else `"Send";
     disabled := loading s |}.

(* ================================================================== *)
(** ** CreateGroupPage *)

Module CreateGroup.

(** The [useState] cells of [CreateGroupPage]. *)
Record State := {
  groupName : jsstring;
  description : jsstring;
  privacy : jsstring;
  error : jsstring;
  loading : bool
}.

Definition initialState : State :=
  {| groupName := []; description := []; privacy := `"private";
     error := []; loading := false |}.

(** The multipart form posted to /api/groups: the fields of the
    [FormData] in the order they are appended, and the two headers. *)
Record Post := {
  formData : list (jsstring * jsstring);
  contentType : jsstring;
  authorization : jsstring
}.

(** [response.data] of a created group; [id] as the template literal
    prints it. *)
Record GroupData := { id : jsstring }.

(** The rejection of the request: [error.response?.data?.detail], absent
    when there is no response or no detail. *)
Record AxiosError := { detail : option jsstring }.

(** The backend: the created group, or the rejection. *)
Definition Backend : Type := Post -> GroupData + AxiosError.

Inductive Effect :=
| PreventDefault
| Http (p : Post)
| ConsoleError (label : jsstring)
| NavigateTo (to : jsstring).

(** What the handler can change: the cells, the local storage, the
    location of the router and the log of effects. *)
Record World := {
  state : State;
  token : option jsstring;
  location : jsstring;
  log : list Effect
}.

(** State passing with the rejection as exception. *)
Definition P (A : Type) : Type := World -> (A + AxiosError) * World.

Definition ret {A} (a : A) : P A := fun w => (inl a, w).

Definition bind {A B} (c : P A) (k : A -> P B) : P B :=
  fun w =>
    match c w with
    | (inl a, w') => k a w'
    | (inr e, w') => (inr e, w')
    end.

(** [try { body } catch (error) { handler } finally { final }] *)
Definition try_catch_finally {A} (body : P A) (handler : AxiosError -> P A)
           (final : P unit) : P A :=
  fun w =>
    let (r, w') := match body w with
                   | (inl a, w') => (inl a, w')
                   | (inr e, w') => handler e w'
                   end in
    match final w' with
    | (inl _, w'') => (r, w'')
    | (inr e, w'') => (inr e, w'')
    end.

Declare Scope page_scope.
Notation "x <- c ;; k" := (bind c (fun x => k))
  (at level 61, c at next level, right associativity) : page_scope.
Notation "c ;; k" := (bind c (fun _ => k))
  (at level 61, right associativity) : page_scope.
Local Open Scope page_scope.

Definition modify_state (f : State -> State) : P unit :=
  fun w => (inl tt, {| state := f (state w); token := token w;
                       location := location w; log := log w |}).

Definition emit (e : Effect) : P unit :=
  fun w => (inl tt, {| state := state w; token := token w;
                       location := location w; log := log w ++ [e] |}).

Definition setError (v : jsstring) : P unit :=
  modify_state (fun s => {| groupName := groupName s; description := description s;
                            privacy := privacy s; error := v; loading := loading s |}).

Definition setLoading (b : bool) : P unit :=
  modify_state (fun s => {| groupName := groupName s; description := description s;
                            privacy := privacy s; error := error s; loading := b |}).

Definition setGroupName (v : jsstring) : P unit :=
  modify_state (fun s => {| groupName := v; description := description s;
                            privacy := privacy s; error := error s; loading := loading s |}).

Definition setDescription (v : jsstring) : P unit :=
  modify_state (fun s => {| groupName := groupName s; description := v;
                            privacy := privacy s; error := error s; loading := loading s |}).

Definition setPrivacy (v : jsstring) : P unit :=
  modify_state (fun s => {| groupName := groupName s; description := description s;
                            privacy := v; error := error s; loading := loading s |}).

(** [navigate(to)]: the router moves to [to]. *)
Definition navigate (to : jsstring) : P unit :=
  fun w => (inl tt, {| state := state w; token := token w;
                       location := to; log := log w ++ [NavigateTo to] |}).

Definition authorization_header : P jsstring :=
  fun w => (inl (bearer (token w)), w).

(** [await axios.post('/api/groups', formData, { headers })] *)
Definition axios_post (backend : Backend) (p : Post) : P GroupData :=
  emit (Http p) ;;
  match backend p with
  | inl data => ret data
  | inr e => fun w => (inr e, w)
  end.

(** [handleSubmit]; [render] holds the cells captured by the render. *)
Definition handleSubmit (backend : Backend) (render : State) : P unit :=
  emit PreventDefault ;;
  setError [] ;;
  if negb (JsString.truthy (JsString.trim (groupName render))) then
    setError `"Group name is required"
  else
    try_catch_finally
      (setLoading true ;;
       (* Create form data *)
       let formData := [ (`"name", groupName render);
                         (`"description", description render);
                         (`"privacy", privacy render) ] in
       auth <- authorization_header ;;
       response <- axios_post backend
                     {| formData := formData;
                        contentType := `"multipart/form-data";
                        authorization := auth |} ;;
       (* Navigate to the new group *)
       navigate (`"/groups/" ++ id response))
      (fun error =>
         emit (ConsoleError `"Error creating group:") ;;
         setError (orElse (detail error)
                          `"Failed to create group. Please try again."))
      (setLoading false).

(** The submission fired from the render of the current state. *)
Definition onSubmit (backend : Backend) (w : World) : World :=
  snd (handleSubmit backend (state w) w).

(** The posts recorded in a log. *)
Definition posts (l : list Effect) : list Post :=
  flat_map (fun e => match e with Http p => [p] | _ => [] end) l.

(** The navigations recorded in a log. *)
Definition navigations (l : list Effect) : list jsstring :=
  flat_map (fun e => match e with NavigateTo to => [to] | _ => [] end) l.

(** The post a submission of the current fields sends. *)
Definition postOf (w : World) : Post :=
  {| formData := [ (`"name", groupName (state w));
                   (`"description", description (state w));
                   (`"privacy", privacy (state w)) ];
     contentType := `"multipart/form-data";
     authorization := bearer (token w) |}.

End CreateGroup.

(* ================================================================== *)
(** ** Layout *)

Module AppLayout.

(** What the [Layout] component reads and writes: its sidebar cell, the
    local storage and the location of the router. *)
Record World := {
  sidebarOpen : bool;
  token : option jsstring;
  pathname : jsstring
}.

(** [handleLogout]: [localStorage.removeItem('token'); navigate('/login')]. *)
Definition handleLogout (w : World) : World :=
  {| sidebarOpen := sidebarOpen w; token := None; pathname := `"/login" |}.

(** [isActive(path)]: [location.pathname === path]. *)
Definition isActive (w : World) (path : jsstring) : bool :=
  JsString.eqb (pathname w) path.

(** The links of the navigation whose style depends on [isActive]. *)
Definition navLinks : list jsstring :=
  [ `"/dashboard"; `"/groups"; `"/communities"; `"/profile" ].

(** The page content of [Layout], the inside of its [<main>]: the
    [children] prop.  The component renders no [<Outlet />], so what
    the matched child route would mount, which the router offers as
    [outlet], is not part of what it renders. *)
Definition main {A : Type} (children outlet : A) : A := children.

End AppLayout.

(* ================================================================== *)
(** ** What a location shows *)

(** The result of rendering the matched chain of a location: a
    [<Navigate>] was mounted and the router moves on, or the listed
    elements are mounted, outermost first. *)
Inductive Screen :=
| Redirected (to : jsstring)
| Showing (mounted : list Router.Element).

(** An element around what it renders inside itself. *)
Definition within (e : Router.Element) (inner : Screen) : Screen :=
  match inner with
  | Redirected to => Redirected to
  | Showing mounted => Showing (e :: mounted)
  end.

(** Mounting one element of the chain, [outlet] being what the child
    route would mount.  [<Navigate>] moves the router;
    [<ProtectedRoute>] redirects or renders its children; [<Layout />],
    written in [App] without children, renders its [main] content; a
    page is a leaf. *)
Fixpoint renderElement (token : option jsstring) (e : Router.Element)
         (outlet : Screen) : Screen :=
  match e with
  | Router.Navigate to _ => Redirected to
  | Router.Protected children =>
      match Router.ProtectedRoute token children with
      | Router.Redirect to => Redirected to
      | Router.Content _ => renderElement token children outlet
      end
  | Router.Layout => within Router.Layout (AppLayout.main (Showing []) outlet)
  | page => Showing [page]
  end.

(** [<Routes>] renders the outermost element of the chain and offers
    the rendering of the rest as its outlet. *)
Fixpoint renderChain (token : option jsstring) (chain : list Router.Element)
  : Screen :=
  match chain with
  | [] => Showing []
  | e :: rest => renderElement token e (renderChain token rest)
  end.

(** What the application shows at a pathname for a given session token;
    [None] when no route matches and [<Routes>] renders nothing. *)
Definition render (token : option jsstring) (pathname : jsstring)
  : option Screen :=
  option_map (renderChain token) (Router.matchedElements pathname).
(* ================================================================== *)
(** ** Notions used to state the properties *)

(** A message whose timestamp denotes an instant (a valid date). *)
Definition has_instant (m : Message.t) : Prop :=
  Message.timestamp m <> None.

Definition timestamp_le (a b : Message.t) : Prop :=
  date_le (Message.timestamp a) (Message.timestamp b).

(** Sorted ascending (non-decreasing) by timestamp: each message is at
    most as late as every message after it. *)
Definition sorted_by_timestamp (l : list Message.t) : Prop :=
  StronglySorted timestamp_le l.

(** The messages stamped with instant [t]. *)
Definition sameInstant (t : Z) (m : Message.t) : bool :=
  match Message.timestamp m with
  | Some u => (u =? t)%Z
  | None => false
  end.

(** How a submission of the form ends: ignored by the guard on blank
    input, or the [try] block ran to its end, or it threw. *)
Inductive Outcome :=
| Ignored
| Sent
| Failed (e : Exn).

Definition outcome (env : Env) (props : Props) (w : World) : Outcome :=
  if JsString.blank (newMessage (state w)) then Ignored
  else match fst (sendAttempt env props (state w) w) with
       | Ok _ => Sent
       | Throw e => Failed e
       end.

(** The request a submission issues in direct mode and in query mode. *)
Definition directRequest (props : Props) (r : Recipient.t) (w : World) : Request :=
  PostMessage (newMessage (state w)) (Recipient.id r) (recipientType props)
    (bearer (token w)).

Definition queryRequest (w : World) : Request :=
  PostRagQuery (newMessage (state w)) (bearer (token w)).

Definition historyRequest (props : Props) (r : Recipient.t) (w : World) : Request :=
  GetMessages (Recipient.id r) (recipientType props) (bearer (token w)).

(** The echo of the query and the answer, as [sendMessage] builds them
    from the clock readings [k], [k+1], [k+2], [k+3]. *)
Definition echoOf (env : Env) (props : Props) (r : Recipient.t) (w : World) : Message.t :=
  {| Message.id := `"temp-" ++ JsString.ofZ (clock env (ticks w));
     Message.content := newMessage (state w);
     Message.sender_id := User.id (currentUser props);
     Message.recipient_id := Recipient.id r;
     Message.timestamp := Some (clock env (1 + ticks w));
     Message.sender_name := None;
     Message.sources := None |}.

Definition answerOf (env : Env) (r : Recipient.t) (d : RagData) (w : World) : Message.t :=
  {| Message.id := `"rag-" ++ JsString.ofZ (clock env (2 + ticks w));
     Message.content := answer d;
     Message.sender_id := `"rag-assistant";
     Message.recipient_id := Recipient.id r;
     Message.timestamp := Some (clock env (3 + ticks w));
     Message.sender_name := None;
     Message.sources := rag_sources d |}.

(** The branches of the route table of [App] in rank order: the path
    pattern of each branch with the element of its innermost route. *)
Definition rankedTable : list (jsstring * option Router.Element) :=
  [ (`"/groups/create", Some Router.CreateGroupPage);
    (`"/communities/create", Some Router.CreateCommunityPage);
    (`"/groups/:groupId", Some Router.GroupPage);
    (`"/communities/:communityId", Some Router.CommunityPage);
    (`"/login", Some Router.LoginPage);
    (`"/signup", Some Router.SignupPage);
    (`"/dashboard", Some Router.Dashboard);
    (`"/", Some (Router.Navigate `"/dashboard" true));
    (`"/", Some (Router.Protected Router.Layout));
    (`"/*", Some (Router.Navigate `"/dashboard" true)) ].

(** The redirect of the index route and of the fallback route. *)
Definition toDashboard : Router.Element := Router.Navigate `"/dashboard" true.

(** The branches of the route table in rank order with the elements of
    their whole chain, outermost first. *)
Definition rankedChains : list (jsstring * list Router.Element) :=
  [ (`"/groups/create", [Router.Protected Router.Layout; Router.CreateGroupPage]);
    (`"/communities/create", [Router.Protected Router.Layout; Router.CreateCommunityPage]);
    (`"/groups/:groupId", [Router.Protected Router.Layout; Router.GroupPage]);
    (`"/communities/:communityId", [Router.Protected Router.Layout; Router.CommunityPage]);
    (`"/login", [Router.LoginPage]);
    (`"/signup", [Router.SignupPage]);
    (`"/dashboard", [Router.Protected Router.Layout; Router.Dashboard]);
    (`"/", [Router.Protected Router.Layout; toDashboard]);
    (`"/", [Router.Protected Router.Layout]);
    (`"/*", [toDashboard]) ].

(** An element that is a page, neither a redirect nor a wrapper. *)
Definition isPage (e : Router.Element) : bool :=
  match e with
  | Router.Navigate _ _ | Router.Protected _ | Router.Layout => false
  | _ => true
  end.

(** Resolving a pathname and following the redirects that [<Routes>]
    mounts itself, those of top-level routes, at most [hops] of them;
    the result is the innermost element of the chain the location ends
    on. *)
Fixpoint follow (hops : nat) (pathname : jsstring) : option Router.Element :=
  match Router.matchedElements pathname with
  | Some [Router.Navigate to _] =>
      match hops with
      | O => None
      | S n => follow n to
      end
  | Some chain => last (map Some chain) None
  | None => None
  end.

(** An id that is one plain path segment: not empty and made of
    letters, digits, dashes and underscores only, so that the target
    built from it is a pathname as it stands (no query, no fragment, no
    escape, no dot segment). *)
Definition isPlainSegment (s : jsstring) : bool :=
  JsString.truthy s && forallb Router.isNameChar s.

(* ================================================================== *)
(** ** Concrete conversations *)

Module Example.

Definition alice : User.t := User.mk `"u1".
Definition bob : Recipient.t := Recipient.mk `"u2" `"Bob".

Definition props : Props :=
  {| currentUser := alice; recipient := Some bob;
     recipientType := Some `"user" |}.

(** A message of Bob to Alice at instant [t]. *)
Definition msg (i : string) (t : Z) : Message.t :=
  {| Message.id := `i; Message.content := `"hello";
     Message.sender_id := `"u2"; Message.recipient_id := `"u1";
     Message.timestamp := Some t; Message.sender_name := Some `"Bob";
     Message.sources := None |}.

Definition history : list Message.t :=
  [msg "m3" 30; msg "m1" 10; msg "m2" 20; msg "m1b" 10].

Definition chunk (n : Z) : Source.t :=
  {| Source.type := `"document_chunk"; Source.sender_id := None;
     Source.document_name := Some `"faq.md"; Source.chunk_index := Some n |}.

Definition quote : Source.t :=
  {| Source.type := `"message"; Source.sender_id := Some `"u2";
     Source.document_name := None; Source.chunk_index := None |}.

Definition link : Source.t :=
  {| Source.type := `"url"; Source.sender_id := None;
     Source.document_name := None; Source.chunk_index := None |}.

Definition fiveSources : list Source.t :=
  [quote; chunk 0; link; chunk 1; chunk 2].

Definition reply : RagData :=
  {| answer := `"42"; rag_sources := Some fiveSources |}.

(** A backend that answers every request; it stamps a posted message
    with instant [t]. *)
Definition online (t : Z) : Backend :=
  {| get_api_messages := fun _ => Some history;
     post_api_rag_query := fun _ => Some reply;
     post_api_messages := fun _ => Some (msg "m4" t) |}.

(** A backend out of reach: every request is rejected. *)
Definition offline : Backend :=
  {| get_api_messages := fun _ => None;
     post_api_rag_query := fun _ => None;
     post_api_messages := fun _ => None |}.

(** A clock that starts at [t0] and advances by one at each reading. *)
Definition env (b : Backend) (t0 : Z) : Env :=
  {| backend := b; clock := fun n => (t0 + Z.of_nat n)%Z |}.

(** The chat with [store] on screen and [input] typed in. *)
Definition chat (store : list Message.t) (input : string) (query : bool) : World :=
  {| state := {| messages := store; newMessage := `input;
                 loading := false; queryMode := query |};
     token := Some `"secret"; ticks := 0; log := [] |}.

Definition answerMessage : Message.t :=
  {| Message.id := `"rag-7"; Message.content := `"42";
     Message.sender_id := `"rag-assistant"; Message.recipient_id := `"u2";
     Message.timestamp := Some 7%Z; Message.sender_name := None;
     Message.sources := Some fiveSources |}.

End Example.

(** Concrete submissions of the group form. *)
Module ExampleGroup.

Definition form (name : string) (err : string) : CreateGroup.World :=
  {| CreateGroup.state :=
       {| CreateGroup.groupName := `name;
          CreateGroup.description := `"about";
          CreateGroup.privacy := `"public";
          CreateGroup.error := `err;
          CreateGroup.loading := false |};
     CreateGroup.token := Some `"secret";
     CreateGroup.location := `"/groups/create";
     CreateGroup.log := [] |}.

(** A backend that creates the group under the given id. *)
Definition creating (id : string) : CreateGroup.Backend :=
  fun _ => inl {| CreateGroup.id := `id |}.

(** A backend that rejects with the given detail. *)
Definition rejecting (detail : option jsstring) : CreateGroup.Backend :=
  fun _ => inr {| CreateGroup.detail := detail |}.

End ExampleGroup.
(* ================================================================== *)
(** ** Facts about strings *)

Module JsStringFacts.
Import JsString.

Lemma eqb_eq (a b : t) : eqb a b = true <-> a = b.
Proof.
  revert b; induction a as [|x a IH]; intros [|y b]; simpl;
    try (split; congruence).
  rewrite andb_true_iff, N.eqb_eq, IH. split.
  - intros [-> ->]; reflexivity.
  - intros E; injection E; auto.
Qed.

Lemma eqb_refl (a : t) : eqb a a = true.
Proof. apply eqb_eq; reflexivity. Qed.

Lemma eqb_neq (a b : t) : eqb a b = false <-> a <> b.
Proof.
  rewrite <- eqb_eq. destruct (eqb a b); split; congruence.
Qed.

Lemma trimStart_blank (s : t) : blank s = true -> trimStart s = [].
Proof.
  induction s as [|c s IH]; simpl; [reflexivity|].
  intros H; apply andb_true_iff in H as [Hc Hs].
  rewrite Hc; auto.
Qed.

Lemma trimStart_nil_blank (s : t) : trimStart s = [] -> blank s = true.
Proof.
  induction s as [|c s IH]; simpl; [reflexivity|].
  destruct (isWhiteSpace c); simpl; [exact IH | discriminate].
Qed.

(** [s.trim()] is the empty string exactly when [s] is white space only. *)
Lemma trim_nil_iff (s : t) : trim s = [] <-> blank s = true.
Proof.
  unfold trim, trimEnd. split.
  - intros H. apply trimStart_nil_blank.
    destruct (trimStart s) as [|c u] eqn:E; [reflexivity|].
    exfalso.
    assert (Hlast : trimStart (rev (c :: u)) = []).
    { apply (f_equal (@rev N)) in H. rewrite rev_involutive in H. exact H. }
    apply trimStart_nil_blank in Hlast.
    unfold blank in Hlast. rewrite forallb_forall in Hlast.
    assert (Hc : isWhiteSpace c = true).
    { apply Hlast. apply -> in_rev. left; reflexivity. }
    clear - E Hc. induction s as [|d s IH]; simpl in E; [discriminate|].
    destruct (isWhiteSpace d) eqn:Hd; [auto|].
    injection E as -> _. congruence.
  - intros H. rewrite (trimStart_blank _ H). reflexivity.
Qed.

Lemma falsy_trim_iff (s : t) : truthy (trim s) = false <-> blank s = true.
Proof.
  rewrite <- trim_nil_iff. destruct (trim s); simpl; split; congruence.
Qed.

End JsStringFacts.

(* ================================================================== *)
(** ** Facts about the sort *)

Section ArraySortFacts.

Variable A : Type.
Variable comparefn : A -> A -> option Z.

Lemma sort_insert_perm (x : A) (l : list A) :
  Permutation (x :: l) (sort_insert comparefn x l).
Proof.
  induction l as [|y l IH]; simpl; [apply Permutation_refl|].
  destruct (SortCompare comparefn x y <=? 0)%Z.
  - apply Permutation_refl.
  - eapply perm_trans; [apply perm_swap|]. apply perm_skip, IH.
Qed.

(** The sort rearranges the array and loses or adds nothing. *)
Lemma array_sort_perm (l : list A) :
  Permutation l (array_sort comparefn l).
Proof.
  induction l as [|x l IH]; simpl; [constructor|].
  eapply perm_trans; [apply perm_skip, IH | apply sort_insert_perm].
Qed.

Lemma array_sort_length (l : list A) :
  List.length (array_sort comparefn l) = List.length l.
Proof. symmetry. apply Permutation_length, array_sort_perm. Qed.

End ArraySortFacts.

Lemma Forall_perm (A : Type) (P : A -> Prop) (l l' : list A) :
  Permutation l l' -> Forall P l -> Forall P l'.
Proof.
  intros Hp Hl. rewrite Forall_forall in *.
  intros x Hx. apply Hl. eapply Permutation_in; [|exact Hx].
  apply Permutation_sym; exact Hp.
Qed.

(** ** Order of a message list *)


Lemma timestamp_le_trans (a b c : Message.t) :
  timestamp_le a b -> timestamp_le b c -> timestamp_le a c.
Proof.
  unfold timestamp_le, date_le.
  destruct (Message.timestamp a), (Message.timestamp b),
    (Message.timestamp c); try tauto; lia.
Qed.

Lemma SortCompare_byTimestamp (a b : Message.t) :
  has_instant a -> has_instant b ->
  ((SortCompare byTimestamp a b <=? 0)%Z = true <-> timestamp_le a b) /\
  ((SortCompare byTimestamp a b <=? 0)%Z = false -> timestamp_le b a).
Proof.
  unfold has_instant, SortCompare, byTimestamp, timestamp_le, date_sub, date_le.
  destruct (Message.timestamp a) as [x|], (Message.timestamp b) as [y|];
    try congruence.
  intros _ _. rewrite Z.leb_le, Z.leb_gt. split; [split|]; lia.
Qed.

Lemma sort_insert_sorted (x : Message.t) (l : list Message.t) :
  has_instant x -> Forall has_instant l ->
  sorted_by_timestamp l ->
  sorted_by_timestamp (sort_insert byTimestamp x l).
Proof.
  intros Hx Hl Hs. induction Hs as [|y l Hs IH Hy]; simpl.
  - repeat constructor.
  - inversion Hl as [|? ? Hvy Hvl]; subst.
    destruct (SortCompare_byTimestamp Hx Hvy) as [Hle Hgt].
    destruct (SortCompare byTimestamp x y <=? 0)%Z.
    + assert (Hxy : timestamp_le x y) by (apply Hle; reflexivity).
      constructor; [constructor; assumption|].
      constructor; [assumption|].
      eapply Forall_impl; [|exact Hy].
      intros z Hz. eapply timestamp_le_trans; eassumption.
    + constructor; [apply IH; assumption|].
      apply (Forall_perm (sort_insert_perm byTimestamp x l)).
      constructor; auto.
Qed.

(** On messages with valid dates the sort yields an ascending list. *)
Lemma array_sort_sorted (l : list Message.t) :
  Forall has_instant l -> sorted_by_timestamp (array_sort byTimestamp l).
Proof.
  induction 1 as [|x l Hx Hl IH]; simpl; [constructor|].
  apply sort_insert_sorted; auto.
  exact (Forall_perm (array_sort_perm byTimestamp l) Hl).
Qed.

(** The sort is stable: messages sharing a timestamp keep their order. *)
Lemma array_sort_stable (t : Z) (l : list Message.t) :
  Forall has_instant l ->
  filter (sameInstant t) (array_sort byTimestamp l) = filter (sameInstant t) l.
Proof.
  intros Hl. induction Hl as [|x l Hx Hl IH]; simpl; [reflexivity|].
  rewrite <- IH.
  assert (Hv : Forall has_instant (array_sort byTimestamp l))
    by exact (Forall_perm (array_sort_perm byTimestamp l) Hl).
  clear IH Hl. induction Hv as [|y s Hy Hs IHs]; simpl; [reflexivity|].
  destruct (SortCompare byTimestamp x y <=? 0)%Z eqn:E; [reflexivity|].
  simpl. rewrite IHs.
  assert (Hyx : sameInstant t x = true -> sameInstant t y = false).
  { revert E.
    unfold sameInstant, has_instant, SortCompare, byTimestamp, date_sub in *.
    destruct (Message.timestamp x), (Message.timestamp y); try congruence.
    rewrite Z.leb_gt. intros ? ?%Z.eqb_eq. apply Z.eqb_neq. lia. }
  destruct (sameInstant t x) eqn:Ex, (sameInstant t y) eqn:Ey; try reflexivity.
  discriminate (Hyx eq_refl).
Qed.

Lemma sameInstant_true (t : Z) (m : Message.t) :
  sameInstant t m = true <-> Message.timestamp m = Some t.
Proof.
  unfold sameInstant. destruct (Message.timestamp m) as [u|].
  - rewrite Z.eqb_eq. split; congruence.
  - split; discriminate.
Qed.

Lemma sorted_head_le (x y : Message.t) (l : list Message.t) :
  has_instant x ->
  sorted_by_timestamp (x :: l) -> In y (x :: l) -> timestamp_le x y.
Proof.
  intros Hx Hs [<- | Hin].
  - unfold timestamp_le, date_le, has_instant in *.
    destruct (Message.timestamp x); [lia | congruence].
  - inversion Hs as [|? ? _ Hall]; subst.
    rewrite Forall_forall in Hall. auto.
Qed.

(** An ascending list is determined by the messages of each instant in
    their order: two such lists that agree instant by instant are equal. *)
Lemma sorted_stable_unique (l1 : list Message.t) :
  forall l2,
    Forall has_instant l1 -> Forall has_instant l2 ->
    sorted_by_timestamp l1 -> sorted_by_timestamp l2 ->
    (forall t, filter (sameInstant t) l1 = filter (sameInstant t) l2) ->
    l1 = l2.
Proof.
  induction l1 as [|x l1 IH]; intros l2 Hv1 Hv2 Hs1 Hs2 Hsame.
  - destruct l2 as [|y l2]; [reflexivity|]. exfalso.
    inversion Hv2 as [|? ? Hy _]; subst. unfold has_instant in Hy.
    destruct (Message.timestamp y) as [u|] eqn:Ey; [|congruence].
    specialize (Hsame u). simpl in Hsame.
    rewrite (proj2 (sameInstant_true u y) Ey) in Hsame. discriminate.
  - inversion Hv1 as [|? ? Hx Hv1']; subst.
    pose proof Hx as Hx'. unfold has_instant in Hx'.
    destruct (Message.timestamp x) as [tx|] eqn:Ex; [clear Hx'|congruence].
    pose proof (proj2 (sameInstant_true tx x) Ex) as Sx.
    destruct l2 as [|y l2].
    { specialize (Hsame tx). simpl in Hsame. rewrite Sx in Hsame. discriminate. }
    inversion Hv2 as [|? ? Hy Hv2']; subst.
    pose proof Hy as Hy'. unfold has_instant in Hy'.
    destruct (Message.timestamp y) as [ty|] eqn:Ey; [clear Hy'|congruence].
    pose proof (proj2 (sameInstant_true ty y) Ey) as Sy.
    assert (Hxin : In x (y :: l2)).
    { apply (proj1 (filter_In (sameInstant tx) x (y :: l2))).
      rewrite <- Hsame. simpl. rewrite Sx. left; reflexivity. }
    assert (Hyin : In y (x :: l1)).
    { apply (proj1 (filter_In (sameInstant ty) y (x :: l1))).
      rewrite Hsame. simpl. rewrite Sy. left; reflexivity. }
    pose proof (sorted_head_le Hy Hs2 Hxin) as Hyx.
    pose proof (sorted_head_le Hx Hs1 Hyin) as Hxy.
    unfold timestamp_le in Hyx, Hxy. rewrite Ex, Ey in Hyx, Hxy. cbn in Hyx, Hxy.
    assert (ty = tx) by lia. subst ty.
    pose proof (Hsame tx) as Htx. simpl in Htx. rewrite Sx, Sy in Htx.
    injection Htx as -> Htail. f_equal.
    inversion Hs1; inversion Hs2; subst.
    apply IH; try assumption.
    intros t. specialize (Hsame t). simpl in Hsame.
    destruct (sameInstant t y); [injection Hsame; auto | exact Hsame].
Qed.

(** Hence every stable sort by timestamp yields the list [array_sort]
    computes: an ascending rearrangement of the input that keeps the
    input order among messages of equal timestamp. *)
Lemma array_sort_unique (l l' : list Message.t) :
  Forall has_instant l ->
  Permutation l l' ->
  sorted_by_timestamp l' ->
  (forall t, filter (sameInstant t) l' = filter (sameInstant t) l) ->
  l' = array_sort byTimestamp l.
Proof.
  intros Hv Hp Hs Hst.
  apply sorted_stable_unique.
  - exact (Forall_perm Hp Hv).
  - exact (Forall_perm (array_sort_perm byTimestamp l) Hv).
  - exact Hs.
  - apply array_sort_sorted, Hv.
  - intros t. rewrite Hst. symmetry. apply array_sort_stable, Hv.
Qed.

(** Appending at the end keeps the order exactly when the new message is
    at least as late as all the stored ones. *)
Lemma sorted_by_timestamp_app (l : list Message.t) (m : Message.t) :
  sorted_by_timestamp (l ++ [m]) <->
  sorted_by_timestamp l /\ Forall (fun x => timestamp_le x m) l.
Proof.
  unfold sorted_by_timestamp. induction l as [|y l IH]; simpl.
  - split; intros; [split|]; repeat constructor.
  - split.
    + intros H. inversion H as [|? ? Hs Hf]; subst.
      apply IH in Hs as [Hs Hm]. apply Forall_app in Hf as [Hf Hym].
      split; constructor; auto. inversion Hym; assumption.
    + intros [H Hm]. inversion H as [|? ? Hs Hf]; subst.
      inversion Hm as [|? ? Hym Hlm]; subst.
      constructor; [apply IH; auto|].
      apply Forall_app; split; [assumption|]. constructor; auto.
Qed.

(* ================================================================== *)
(** ** Running the handlers *)


Ltac unfold_handlers :=
  unfold onSubmit, onLoad, outcome, recipientEffect, sendMessage, sendAttempt,
    sendQuery, sendDirect, fetchMessages, fetchAttempt, directRequest,
    queryRequest, historyRequest, try_catch, axios, deref, console_error,
    setMessages, setNewMessage, setLoading, modify_state, emit, Date_now,
    authorization_header, bind, ret, throw in *.

Ltac case_split :=
  repeat match goal with
    | H : ?x = _ |- context [match ?x with _ => _ end] => rewrite H
    | |- context [match ?x with _ => _ end] => destruct x eqn:?
    end.

Arguments JsString.lit : simpl never.
Arguments JsString.ofZ : simpl never.
Arguments JsString.trim : simpl never.
Arguments JsString.blank : simpl never.
Arguments bearer : simpl never.
Arguments array_sort : simpl never.

Ltac run_handler := unfold_handlers; cbn.

Section Runs.

Variable env : Env.
Variable props : Props.

Lemma guard_blank (s : jsstring) :
  negb (JsString.truthy (JsString.trim s)) = JsString.blank s.
Proof.
  destruct (JsString.blank s) eqn:E.
  - apply JsStringFacts.falsy_trim_iff in E. rewrite E. reflexivity.
  - destruct (JsString.truthy (JsString.trim s)) eqn:T; [reflexivity|].
    apply JsStringFacts.falsy_trim_iff in T. congruence.
Qed.

(** The outcome of the [try] block does not depend on the log. *)
Lemma sendAttempt_log (s : State) (w : World) (e : Effect) :
  fst (sendAttempt env props s (snd (emit e w))) =
  fst (sendAttempt env props s w) /\
  state (snd (sendAttempt env props s (snd (emit e w)))) =
  state (snd (sendAttempt env props s w)).
Proof.
  run_handler. destruct (queryMode s); cbn.
  - destruct (post_api_rag_query _ _); cbn; [|auto].
    destruct (recipient props); cbn; auto.
  - destruct (recipient props); cbn; [|auto].
    destruct (post_api_messages _ _); cbn; auto.
Qed.

(** A submission is sent exactly when the input is not blank, the
    recipient is there and the request of the current mode resolves. *)
Lemma outcome_Sent_iff (w : World) :
  outcome env props w = Sent <->
  JsString.blank (newMessage (state w)) = false /\
  exists r, recipient props = Some r /\
    if queryMode (state w)
    then post_api_rag_query (backend env) (queryRequest w) <> None
    else post_api_messages (backend env) (directRequest props r w) <> None.
Proof.
  run_handler.
  destruct (JsString.blank _);
    [split; [discriminate | intros [? _]; discriminate]|].
  destruct (queryMode (state w)); cbn;
    destruct (recipient props) as [r0|]; cbn;
    try match goal with
      | |- context [post_api_rag_query ?b ?q] =>
          destruct (post_api_rag_query b q) eqn:E; cbn
      | |- context [post_api_messages ?b ?q] =>
          destruct (post_api_messages b q) eqn:E; cbn
      end;
    (split;
     [ first [ discriminate
             | intros _; split; [reflexivity|];
               exists r0; split; [reflexivity | congruence] ]
     | intros [_ (r' & Hr' & H)];
       first [ reflexivity | discriminate | congruence ] ]).
Qed.

(** A rejected request makes the submission fail. *)
Lemma rejected_direct_fails (w : World) (r : Recipient.t) :
  JsString.blank (newMessage (state w)) = false ->
  queryMode (state w) = false ->
  recipient props = Some r ->
  post_api_messages (backend env) (directRequest props r w) = None ->
  outcome env props w = Failed RequestError.
Proof.
  intros Hb Hq Hr Hp. run_handler. rewrite Hb, Hq, Hr; cbn.
  rewrite Hp. reflexivity.
Qed.

Lemma rejected_query_fails (w : World) :
  JsString.blank (newMessage (state w)) = false ->
  queryMode (state w) = true ->
  post_api_rag_query (backend env) (queryRequest w) = None ->
  outcome env props w = Failed RequestError.
Proof.
  intros Hb Hq Hp. run_handler. rewrite Hb, Hq; cbn.
  rewrite Hp. reflexivity.
Qed.

(** The state cells after a submission, for each outcome. *)
Lemma onSubmit_Ignored (w : World) :
  outcome env props w = Ignored ->
  onSubmit env props w =
  {| state := state w; token := token w; ticks := ticks w;
     log := log w ++ [PreventDefault] |}.
Proof.
  unfold outcome, onSubmit, sendMessage.
  destruct (JsString.blank _) eqn:Hb.
  - intros _. unfold bind at 1. cbn [emit]. rewrite guard_blank.
    cbn [state]. rewrite Hb. reflexivity.
  - destruct (fst _); discriminate.
Qed.

Lemma onSubmit_Failed (w : World) (e : Exn) :
  outcome env props w = Failed e ->
  state (onSubmit env props w) =
  {| messages := messages (state w); newMessage := newMessage (state w);
     loading := false; queryMode := queryMode (state w) |}.
Proof.
  destruct w as [[ms nm ld qm] tok tk lg].
  run_handler. rewrite guard_blank.
  destruct (JsString.blank _); [discriminate|].
  destruct qm; cbn.
  - destruct (post_api_rag_query _ _); cbn; [|reflexivity].
    destruct (recipient props); cbn; [discriminate|reflexivity].
  - destruct (recipient props); cbn; [|reflexivity].
    destruct (post_api_messages _ _); cbn; [discriminate|reflexivity].
Qed.

Lemma onSubmit_Sent (w : World) :
  outcome env props w = Sent ->
  newMessage (state (onSubmit env props w)) = [] /\
  loading (state (onSubmit env props w)) = false.
Proof.
  destruct w as [[ms nm ld qm] tok tk lg].
  run_handler. rewrite guard_blank.
  destruct (JsString.blank _); [discriminate|].
  destruct qm; cbn.
  - destruct (post_api_rag_query _ _); cbn; [|discriminate].
    destruct (recipient props); cbn; [auto|discriminate].
  - destruct (recipient props); cbn; [|discriminate].
    destruct (post_api_messages _ _); cbn; [auto|discriminate].
Qed.

End Runs.

(* ================================================================== *)
(** ** The store after each path of the handlers *)

Section Store.

Variable env : Env.
Variable props : Props.


Lemma onSubmit_direct (w : World) (r : Recipient.t) (m : Message.t) :
  JsString.blank (newMessage (state w)) = false ->
  queryMode (state w) = false ->
  recipient props = Some r ->
  post_api_messages (backend env) (directRequest props r w) = Some m ->
  onSubmit env props w =
  {| state := {| messages := messages (state w) ++ [m]; newMessage := [];
                 loading := false; queryMode := false |};
     token := token w; ticks := ticks w;
     log := log w ++ [PreventDefault; Http (directRequest props r w)] |}.
Proof.
  destruct w as [[ms nm ld qm] tok tk lg]. cbn. intros Hb -> Hr Hp.
  run_handler. rewrite guard_blank, Hb, Hr. cbn.
  unfold directRequest in Hp; cbn in Hp. rewrite Hp. cbn.
  rewrite <- app_assoc. reflexivity.
Qed.

Lemma onSubmit_query (w : World) (r : Recipient.t) (d : RagData) :
  JsString.blank (newMessage (state w)) = false ->
  queryMode (state w) = true ->
  recipient props = Some r ->
  post_api_rag_query (backend env) (queryRequest w) = Some d ->
  onSubmit env props w =
  {| state := {| messages := messages (state w) ++ [echoOf env props r w; answerOf env r d w];
                 newMessage := []; loading := false; queryMode := true |};
     token := token w; ticks := 4 + ticks w;
     log := log w ++ [PreventDefault; Http (queryRequest w)] |}.
Proof.
  destruct w as [[ms nm ld qm] tok tk lg]. cbn. intros Hb -> Hr Hp.
  run_handler. rewrite guard_blank, Hb. cbn.
  unfold queryRequest in Hp; cbn in Hp. rewrite Hp. cbn. rewrite Hr. cbn.
  rewrite <- app_assoc. reflexivity.
Qed.

Lemma fetchMessages_resolved (w : World) (r : Recipient.t)
      (msgs : list Message.t) :
  recipient props = Some r ->
  get_api_messages (backend env) (historyRequest props r w) = Some msgs ->
  fetchMessages env props w =
  (Ok tt,
   {| state := {| messages := array_sort byTimestamp msgs;
                  newMessage := newMessage (state w);
                  loading := false; queryMode := queryMode (state w) |};
      token := token w; ticks := ticks w;
      log := log w ++ [Http (historyRequest props r w)] |}).
Proof.
  destruct w as [[ms nm ld qm] tok tk lg]. cbn. intros Hr Hg.
  run_handler. rewrite Hr. cbn.
  unfold historyRequest in Hg; cbn in Hg. rewrite Hg. reflexivity.
Qed.

Lemma fetchAttempt_rejected (w : World) (r : Recipient.t) :
  recipient props = Some r ->
  get_api_messages (backend env) (historyRequest props r w) = None ->
  fst (fetchAttempt env props w) = Throw RequestError.
Proof.
  intros Hr Hg. run_handler. rewrite Hr. cbn. rewrite Hg. reflexivity.
Qed.

Lemma fetchMessages_thrown (w : World) (e : Exn) :
  fst (fetchAttempt env props w) = Throw e ->
  state (snd (fetchMessages env props w)) =
  {| messages := messages (state w); newMessage := newMessage (state w);
     loading := false; queryMode := queryMode (state w) |}.
Proof.
  destruct w as [[ms nm ld qm] tok tk lg].
  run_handler. destruct (recipient props); cbn; [|reflexivity].
  destruct (get_api_messages _ _); cbn; [discriminate|reflexivity].
Qed.

Lemma fetchMessages_loading (w : World) :
  loading (state (snd (fetchMessages env props w))) = false.
Proof.
  run_handler. destruct (recipient props); cbn; [|reflexivity].
  destruct (get_api_messages _ _); reflexivity.
Qed.

Lemma onLoad_valid (w : World) (r : Recipient.t) (ty : jsstring) :
  recipient props = Some r ->
  recipientType props = Some ty -> JsString.truthy ty = true ->
  onLoad env props w = snd (fetchMessages env props w).
Proof.
  unfold onLoad, recipientEffect. intros -> -> ->. reflexivity.
Qed.

End Store.

(* ================================================================== *)
(** ** Facts about the source list *)

Lemma map_idx_length (A B : Type) (f : A -> nat -> B) (k : nat) (l : list A) :
  List.length (map_idx f k l) = List.length l.
Proof.
  revert k; induction l as [|x l IH]; intros k; simpl; [reflexivity|].
  rewrite IH; reflexivity.
Qed.

Lemma map_idx_nth_error (A B : Type) (f : A -> nat -> B) (l : list A) :
  forall k i x, nth_error l i = Some x ->
    nth_error (map_idx f k l) i = Some (f x (k + i)%nat).
Proof.
  induction l as [|y l IH]; intros k [|i] x; simpl; try discriminate.
  - intros [= ->]. rewrite Nat.add_0_r. reflexivity.
  - intros H. rewrite (IH (S k) i x H). f_equal. f_equal. lia.
Qed.

(* ================================================================== *)
(** ** Facts about route matching *)

Module RouterFacts.
Import Router.

Lemma split_not_nil (s : jsstring) : split s <> [].
Proof.
  induction s as [|c s IH]; simpl; [discriminate|].
  destruct (N.eqb c slash); [discriminate|].
  destruct (split s); [congruence | discriminate].
Qed.

(** A pathname that starts with a slash splits into an empty first
    part and at least one more part. *)
Lemma split_leading_slash (p : jsstring) :
  startsWithSlash p = true ->
  exists part parts, split p = [] :: part :: parts.
Proof.
  destruct p as [|c p]; simpl; [discriminate|].
  intros ->. pose proof (split_not_nil p) as Hn.
  destruct (split p) as [|part parts]; [congruence|]. eauto.
Qed.

Lemma matchPath_needs_slash (pattern p : jsstring) :
  matchPath pattern p = true -> startsWithSlash p = true.
Proof.
  unfold matchPath. destruct p as [|c p]; simpl; [discriminate|].
  destruct (N.eqb c slash); [reflexivity|].
  destruct (split p) as [|part parts]; [discriminate|]. discriminate.
Qed.

Lemma split_noLineTerminator (p : jsstring) :
  noLineTerminator p = true -> forallb noLineTerminator (split p) = true.
Proof.
  induction p as [|c p IH]; simpl; [reflexivity|].
  intros H. apply andb_true_iff in H as [Hc Hp]. specialize (IH Hp).
  destruct (N.eqb c slash); [exact IH|].
  destruct (split p) as [|part parts]; simpl in *.
  - rewrite Hc. reflexivity.
  - apply andb_true_iff in IH as [Hpart Hparts].
    rewrite Hc, Hpart, Hparts. reflexivity.
Qed.

(** The fallback pattern matches every pathname that holds no line
    terminator. *)
Lemma matchPath_splat (p : jsstring) :
  startsWithSlash p = true -> noLineTerminator p = true ->
  matchPath `"/*" p = true.
Proof.
  intros H Hlt. destruct (split_leading_slash p H) as (part & parts & E).
  pose proof (split_noLineTerminator p Hlt) as Hparts. rewrite E in Hparts.
  unfold matchPath. rewrite E.
  change (compilePath `"/*") with {| segments := []; splat := true |}.
  cbn [matchSegments segments splat andb].
  change (forallb noLineTerminator ([] :: part :: parts))
    with (forallb noLineTerminator (part :: parts)) in Hparts.
  rewrite Hparts. reflexivity.
Qed.

(** A pathname with a line terminator that fits no page pattern matches
    no route at all, not even the fallback. *)
Example line_terminator_unmatched :
  matchedElements (`"/a" ++ 10%N :: `"b") = None.
Proof. vm_compute. reflexivity. Qed.

Lemma ranked_App :
  map (fun b => (path b, Router.leafOf b)) (rankRouteBranches (flattenRoutes App))
  = rankedTable.
Proof. vm_compute. reflexivity. Qed.

(** Resolving a pathname is a first-match search in the ranked table. *)
Lemma resolve_table (p : jsstring) :
  resolve p =
  match find (fun e => matchPath (fst e) p) rankedTable with
  | Some e => snd e
  | None => None
  end.
Proof.
  unfold resolve, matchedElements, matchRoutes. rewrite <- ranked_App.
  induction (rankRouteBranches (flattenRoutes App)) as [|b bs IH];
    simpl; [reflexivity|].
  destruct (matchPath (path b) p); [reflexivity | exact IH].
Qed.

(** Of the links of the sidebar only /dashboard names a page of the
    table; the others fall back to the redirect. *)
Example Layout_links_resolve :
  map resolve Layout_links =
  [ Some Dashboard; Some toDashboard; Some toDashboard; Some toDashboard;
    Some toDashboard; Some toDashboard ].
Proof. vm_compute. reflexivity. Qed.

End RouterFacts.

(* ================================================================== *)
(** ** Properties of the chat pipeline *)

(** C1. For a valid (recipient, recipientType) pair, when the history
    request resolves, [fetchMessages] replaces the whole store by the
    messages of the response sorted ascending (non-decreasing) by
    timestamp: the new store is the sorted response, holds exactly the
    messages returned and nothing of the former store, and is in order. *)
Theorem loadHistory_sorts_and_replaces
  (env : Env) (props : Props) (w : World)
  (r : Recipient.t) (ty : jsstring) (msgs : list Message.t) :
  recipient props = Some r ->
  recipientType props = Some ty ->
  JsString.truthy ty = true ->
  get_api_messages (backend env) (historyRequest props r w) = Some msgs ->
  Forall has_instant msgs ->
  let store := messages (state (onLoad env props w)) in
  store = array_sort byTimestamp msgs /\
  Permutation msgs store /\
  sorted_by_timestamp store.
Proof.
  intros Hr Hty Htruthy Hget Hvalid store.
  assert (E : store = array_sort byTimestamp msgs).
  { subst store. rewrite (onLoad_valid env props w Hr Hty Htruthy).
    rewrite (fetchMessages_resolved env props w Hr Hget). reflexivity. }
  rewrite E. split; [reflexivity|]. split.
  - apply array_sort_perm.
  - apply array_sort_sorted, Hvalid.
Qed.

Lemma loadHistory_sorts_and_replaces_witness :
  let store :=
    messages (state (onLoad (Example.env (Example.online 40) 1000)
                            Example.props (Example.chat [Example.msg "old" 99] "" false))) in
  store = array_sort byTimestamp Example.history /\
  Permutation Example.history store /\
  sorted_by_timestamp store.
Proof.
  apply (@loadHistory_sorts_and_replaces
           (Example.env (Example.online 40) 1000) Example.props
           (Example.chat [Example.msg "old" 99] "" false)
           Example.bob `"user" Example.history).
  - reflexivity.
  - reflexivity.
  - reflexivity.
  - reflexivity.
  - repeat constructor; discriminate.
Defined.

(** C6. When [fetchMessages] fails, that is when its [try] block throws,
    as it does when the request is rejected, the message store is what it
    was before; and on every path, success or failure, the loading flag
    is false when the handler is done. *)
Theorem loadHistory_failure_keeps_store
  (env : Env) (props : Props) (w : World) :
  let w' := snd (fetchMessages env props w) in
  loading (state w') = false /\
  (forall e, fst (fetchAttempt env props w) = Throw e ->
     messages (state w') = messages (state w)) /\
  (forall r, recipient props = Some r ->
     get_api_messages (backend env) (historyRequest props r w) = None ->
     fst (fetchAttempt env props w) = Throw RequestError /\
     messages (state w') = messages (state w)).
Proof.
  intros w'. subst w'. split; [apply fetchMessages_loading|]. split.
  - intros e He. rewrite (fetchMessages_thrown env props w He). reflexivity.
  - intros r Hr Hget.
    pose proof (fetchAttempt_rejected env props w Hr Hget) as He.
    split; [exact He|].
    rewrite (fetchMessages_thrown env props w He). reflexivity.
Qed.

Lemma loadHistory_failure_keeps_store_witness :
  let w := Example.chat Example.history "draft" false in
  let w' := snd (fetchMessages (Example.env Example.offline 1000) Example.props w) in
  loading (state w') = false /\ messages (state w') = Example.history.
Proof.
  intros w w'.
  destruct (loadHistory_failure_keeps_store
              (Example.env Example.offline 1000) Example.props w)
    as (Hl & Hthrow & Hrej).
  split; [exact Hl|].
  destruct (Hrej Example.bob eq_refl eq_refl) as [He Hm].
  pose proof (Hthrow RequestError He) as Hm'.
  exact Hm.
Defined.

(** C4. Whatever the mode, submitting an input that is empty or made of
    white space only does nothing: the handler returns normally, no
    request is issued, and the state cells, among them the message store
    and the input text, are unchanged. *)
Theorem send_blank_is_noop (env : Env) (props : Props) (w : World) :
  JsString.blank (newMessage (state w)) = true ->
  let w' := onSubmit env props w in
  fst (sendMessage env props (state w) w) = Ok tt /\
  requests (log w') = requests (log w) /\
  messages (state w') = messages (state w) /\
  newMessage (state w') = newMessage (state w) /\
  state w' = state w.
Proof.
  intros Hb w'.
  assert (Ho : outcome env props w = Ignored) by (unfold outcome; rewrite Hb; reflexivity).
  subst w'. rewrite (onSubmit_Ignored env props w Ho). cbn [state log].
  split.
  - unfold sendMessage, bind. cbn [emit]. rewrite guard_blank.
    cbn [state]. rewrite Hb. reflexivity.
  - unfold requests. rewrite flat_map_app. cbn. rewrite app_nil_r. auto.
Qed.

Lemma send_blank_is_noop_witness :
  let w := Example.chat Example.history "   " true in
  let w' := onSubmit (Example.env (Example.online 40) 1000) Example.props w in
  requests (log w') = [] /\ state w' = state w.
Proof.
  intros w w'.
  destruct (@send_blank_is_noop (Example.env (Example.online 40) 1000)
              Example.props w eq_refl) as (_ & Hreq & _ & _ & Hst).
  split; [exact Hreq | exact Hst].
Defined.

(** C3. A successful send in direct mode appends exactly one message,
    the one the server returned; a successful send in query mode appends
    exactly two: first the echo of the query, with a temporary id made
    from the clock, the text typed, the current user as sender and the
    local time as timestamp, then the answer of the synthetic sender
    rag-assistant with the answer text and the sources of the backend. *)
Theorem send_appends_one_or_two
  (env : Env) (props : Props) (w : World) (r : Recipient.t) :
  JsString.blank (newMessage (state w)) = false ->
  recipient props = Some r ->
  let store := messages (state w) in
  let store' := messages (state (onSubmit env props w)) in
  (forall m,
     queryMode (state w) = false ->
     post_api_messages (backend env) (directRequest props r w) = Some m ->
     outcome env props w = Sent /\
     store' = store ++ [m]) /\
  (forall d,
     queryMode (state w) = true ->
     post_api_rag_query (backend env) (queryRequest w) = Some d ->
     outcome env props w = Sent /\
     exists echo response,
       store' = store ++ [echo; response] /\
       Message.id echo = `"temp-" ++ JsString.ofZ (clock env (ticks w)) /\
       Message.content echo = newMessage (state w) /\
       Message.sender_id echo = User.id (currentUser props) /\
       Message.recipient_id echo = Recipient.id r /\
       Message.timestamp echo = Some (clock env (1 + ticks w)) /\
       Message.sources echo = None /\
       Message.id response = `"rag-" ++ JsString.ofZ (clock env (2 + ticks w)) /\
       Message.content response = answer d /\
       Message.sender_id response = `"rag-assistant" /\
       Message.recipient_id response = Recipient.id r /\
       Message.timestamp response = Some (clock env (3 + ticks w)) /\
       Message.sources response = rag_sources d).
Proof.
  intros Hb Hr store store'. subst store store'. split.
  - intros m Hq Hp. split.
    + apply outcome_Sent_iff. split; [exact Hb|]. exists r. split; [exact Hr|].
      rewrite Hq, Hp. discriminate.
    + rewrite (onSubmit_direct env props w Hb Hq Hr Hp). reflexivity.
  - intros d Hq Hp. split.
    + apply outcome_Sent_iff. split; [exact Hb|]. exists r. split; [exact Hr|].
      rewrite Hq, Hp. discriminate.
    + exists (echoOf env props r w), (answerOf env r d w).
      rewrite (onSubmit_query env props w Hb Hq Hr Hp).
      repeat split; reflexivity.
Qed.

Lemma send_appends_one_or_two_witness :
  let e := Example.env (Example.online 40) 1000 in
  messages (state (onSubmit e Example.props (Example.chat Example.history "hi" false)))
  = Example.history ++ [Example.msg "m4" 40] /\
  List.length (messages (state (onSubmit e Example.props
                                  (Example.chat Example.history "why?" true))))
  = (List.length Example.history + 2)%nat.
Proof.
  intros e. split.
  - destruct (@send_appends_one_or_two e Example.props
                (Example.chat Example.history "hi" false) Example.bob
                eq_refl eq_refl) as [Hdirect _].
    destruct (Hdirect (Example.msg "m4" 40) eq_refl eq_refl) as [_ Hs].
    exact Hs.
  - destruct (@send_appends_one_or_two e Example.props
                (Example.chat Example.history "why?" true) Example.bob
                eq_refl eq_refl) as [_ Hquery].
    destruct (Hquery Example.reply eq_refl eq_refl)
      as (_ & echo & response & Hs & _).
    rewrite Hs. rewrite length_app. reflexivity.
Defined.

(** C5. The input text is cleared exactly when the submission was sent:
    after a sent submission, in either mode, the input is empty; after a
    failed one, or one ignored for being blank, the input is the text
    that was there.  A submission is sent when the input is not blank,
    the recipient is there and the request of the mode resolves. *)
Theorem input_cleared_iff_sent (env : Env) (props : Props) (w : World) :
  let input := newMessage (state w) in
  let input' := newMessage (state (onSubmit env props w)) in
  (outcome env props w = Sent -> input' = []) /\
  (outcome env props w <> Sent -> input' = input) /\
  (input <> [] -> (input' = [] <-> outcome env props w = Sent)) /\
  (outcome env props w = Sent <->
   JsString.blank input = false /\
   exists r, recipient props = Some r /\
     if queryMode (state w)
     then post_api_rag_query (backend env) (queryRequest w) <> None
     else post_api_messages (backend env) (directRequest props r w) <> None).
Proof.
  intros input input'. subst input input'.
  assert (Hsent : outcome env props w = Sent ->
                  newMessage (state (onSubmit env props w)) = [])
    by (intros H; apply (onSubmit_Sent env props w H)).
  assert (Hkept : outcome env props w <> Sent ->
                  newMessage (state (onSubmit env props w)) = newMessage (state w)).
  { intros H. destruct (outcome env props w) as [| |e] eqn:Ho.
    - rewrite (onSubmit_Ignored env props w Ho). reflexivity.
    - congruence.
    - rewrite (onSubmit_Failed env props w Ho). reflexivity. }
  repeat split; try assumption.
  - intros Hempty. destruct (outcome env props w) eqn:Ho; try reflexivity;
      exfalso; apply H; rewrite <- Hkept; auto; discriminate.
  - apply outcome_Sent_iff in H. apply H.
  - apply outcome_Sent_iff in H. apply H.
  - apply outcome_Sent_iff.
Qed.

Lemma input_cleared_iff_sent_witness :
  newMessage (state (onSubmit (Example.env (Example.online 40) 1000) Example.props
                              (Example.chat Example.history "hi" false))) = [] /\
  newMessage (state (onSubmit (Example.env Example.offline 1000) Example.props
                              (Example.chat Example.history "hi" false))) = `"hi".
Proof.
  split.
  - destruct (input_cleared_iff_sent (Example.env (Example.online 40) 1000)
                Example.props (Example.chat Example.history "hi" false))
      as (Hsent & _).
    apply Hsent. reflexivity.
  - destruct (input_cleared_iff_sent (Example.env Example.offline 1000)
                Example.props (Example.chat Example.history "hi" false))
      as (_ & Hkept & _).
    apply Hkept. discriminate.
Defined.

(** C10. A failed send leaves the message store as it was: whenever the
    [try] block of [sendMessage] throws, and in particular when the
    request of either mode is rejected, nothing is appended, neither the
    server message, nor the echo of the query, nor the answer. *)
Theorem failed_send_keeps_store (env : Env) (props : Props) (w : World) :
  let store := messages (state w) in
  let store' := messages (state (onSubmit env props w)) in
  (forall e, outcome env props w = Failed e -> store' = store) /\
  (forall r,
     JsString.blank (newMessage (state w)) = false ->
     queryMode (state w) = false ->
     recipient props = Some r ->
     post_api_messages (backend env) (directRequest props r w) = None ->
     store' = store) /\
  (JsString.blank (newMessage (state w)) = false ->
   queryMode (state w) = true ->
   post_api_rag_query (backend env) (queryRequest w) = None ->
   store' = store).
Proof.
  intros store store'. subst store store'.
  assert (Hfail : forall e, outcome env props w = Failed e ->
            messages (state (onSubmit env props w)) = messages (state w)).
  { intros e He. rewrite (onSubmit_Failed env props w He). reflexivity. }
  split; [exact Hfail|]. split.
  - intros r Hb Hq Hr Hp.
    exact (Hfail _ (rejected_direct_fails env props w Hb Hq Hr Hp)).
  - intros Hb Hq Hp.
    exact (Hfail _ (rejected_query_fails env props w Hb Hq Hp)).
Qed.

Lemma failed_send_keeps_store_witness :
  let e := Example.env Example.offline 1000 in
  messages (state (onSubmit e Example.props (Example.chat Example.history "hi" false)))
  = Example.history /\
  messages (state (onSubmit e Example.props (Example.chat Example.history "why?" true)))
  = Example.history.
Proof.
  intros e. split.
  - destruct (failed_send_keeps_store e Example.props
                (Example.chat Example.history "hi" false)) as (_ & Hdirect & _).
    exact (Hdirect Example.bob eq_refl eq_refl eq_refl eq_refl).
  - destruct (failed_send_keeps_store e Example.props
                (Example.chat Example.history "why?" true)) as (_ & _ & Hquery).
    exact (Hquery eq_refl eq_refl eq_refl).
Defined.

(** C2, as stated, fails: a sent direct message is appended at the end
    whatever its timestamp.  With a store holding one message of instant
    10, a send the server stamps with instant 5 leaves the store out of
    order. *)
Lemma direct_send_breaks_order :
  let e := Example.env (Example.online 5) 1000 in
  let w := Example.chat [Example.msg "m1" 10] "hi" false in
  sorted_by_timestamp (messages (state w)) /\
  outcome e Example.props w = Sent /\
  messages (state (onSubmit e Example.props w))
  = [Example.msg "m1" 10; Example.msg "m4" 5] /\
  ~ sorted_by_timestamp (messages (state (onSubmit e Example.props w))).
Proof.
  cbv zeta. split; [repeat constructor|]. split; [reflexivity|].
  split; [reflexivity|].
  change (~ sorted_by_timestamp [Example.msg "m1" 10; Example.msg "m4" 5]).
  intros H. inversion H as [|? ? _ Hall]; subst.
  inversion Hall as [|? ? Hle _]; subst.
  unfold timestamp_le in Hle; cbn in Hle. lia.
Qed.

(** The same happens in query mode when the local clock is behind the
    timestamps of the store. *)
Lemma query_send_breaks_order :
  let e := Example.env (Example.online 40) 1000 in
  let w := Example.chat [Example.msg "m1" 2000] "why?" true in
  sorted_by_timestamp (messages (state w)) /\
  outcome e Example.props w = Sent /\
  ~ sorted_by_timestamp (messages (state (onSubmit e Example.props w))).
Proof.
  cbv zeta. split; [repeat constructor|]. split; [reflexivity|].
  intros H.
  rewrite (@onSubmit_query (Example.env (Example.online 40) 1000) Example.props
             (Example.chat [Example.msg "m1" 2000] "why?" true)
             Example.bob Example.reply eq_refl eq_refl eq_refl eq_refl) in H.
  cbn [state messages Example.chat app] in H.
  inversion H as [|? ? _ Hall]; subst.
  inversion Hall as [|? ? Hle _]; subst.
  unfold timestamp_le in Hle; cbn in Hle. lia.
Qed.

(** C2, amended.  On a store that is sorted ascending by timestamp:
    a successful [fetchMessages] leaves a sorted store, since it sorts;
    a sent direct message keeps the store sorted exactly when the
    timestamp the server assigned is not before any timestamp of the
    store; a sent query keeps it sorted exactly when the local time of
    the echo is not before any timestamp of the store and the local time
    of the answer is not before that of the echo. *)
Theorem store_order_kept_when_timestamps_increase
  (env : Env) (props : Props) (w : World) (r : Recipient.t) :
  recipient props = Some r ->
  sorted_by_timestamp (messages (state w)) ->
  let store := messages (state w) in
  (forall msgs,
     get_api_messages (backend env) (historyRequest props r w) = Some msgs ->
     Forall has_instant msgs ->
     sorted_by_timestamp (messages (state (snd (fetchMessages env props w))))) /\
  (forall m,
     JsString.blank (newMessage (state w)) = false ->
     queryMode (state w) = false ->
     post_api_messages (backend env) (directRequest props r w) = Some m ->
     (sorted_by_timestamp (messages (state (onSubmit env props w))) <->
      Forall (fun x => timestamp_le x m) store)) /\
  (forall d,
     JsString.blank (newMessage (state w)) = false ->
     queryMode (state w) = true ->
     post_api_rag_query (backend env) (queryRequest w) = Some d ->
     (sorted_by_timestamp (messages (state (onSubmit env props w))) <->
      Forall (fun x => date_le (Message.timestamp x)
                               (Some (clock env (1 + ticks w)))) store /\
      (clock env (1 + ticks w) <= clock env (3 + ticks w))%Z)).
Proof.
  intros Hr Hsorted store. subst store. split; [|split].
  - intros msgs Hget Hvalid.
    rewrite (fetchMessages_resolved env props w Hr Hget). cbn [snd state messages].
    apply array_sort_sorted, Hvalid.
  - intros m Hb Hq Hp.
    rewrite (onSubmit_direct env props w Hb Hq Hr Hp). cbn [state messages].
    rewrite sorted_by_timestamp_app. tauto.
  - intros d Hb Hq Hp.
    rewrite (onSubmit_query env props w Hb Hq Hr Hp). cbn [state messages].
    change [echoOf env props r w; answerOf env r d w]
      with ([echoOf env props r w] ++ [answerOf env r d w]).
    rewrite app_assoc, !sorted_by_timestamp_app, Forall_app.
    change (fun x => timestamp_le x (echoOf env props r w))
      with (fun x => date_le (Message.timestamp x) (Some (clock env (1 + ticks w)))).
    split.
    + intros ((_ & Hecho) & _ & Hea). split; [exact Hecho|].
      inversion Hea as [|? ? Hle _]; subst. exact Hle.
    + intros (Hecho & Hle). repeat split; try assumption.
      * eapply Forall_impl; [|exact Hecho]. intros x Hx.
        apply (timestamp_le_trans x (echoOf env props r w)); [exact Hx | exact Hle].
      * constructor; [exact Hle | constructor].
Qed.

Lemma store_order_kept_when_timestamps_increase_witness :
  let e := Example.env (Example.online 40) 1000 in
  let sorted_history := [Example.msg "m1" 10; Example.msg "m2" 20; Example.msg "m3" 30] in
  sorted_by_timestamp
    (messages (state (snd (fetchMessages e Example.props
                             (Example.chat sorted_history "" false))))) /\
  sorted_by_timestamp
    (messages (state (onSubmit e Example.props
                        (Example.chat sorted_history "hi" false)))) /\
  sorted_by_timestamp
    (messages (state (onSubmit e Example.props
                        (Example.chat sorted_history "why?" true)))).
Proof.
  intros e sorted_history.
  assert (Hs : sorted_by_timestamp sorted_history).
  { repeat constructor; unfold timestamp_le; cbn; lia. }
  split; [|split].
  - destruct (@store_order_kept_when_timestamps_increase e Example.props
                (Example.chat sorted_history "" false) Example.bob eq_refl Hs)
      as (Hfetch & _).
    apply (Hfetch Example.history eq_refl).
    repeat constructor; discriminate.
  - destruct (@store_order_kept_when_timestamps_increase e Example.props
                (Example.chat sorted_history "hi" false) Example.bob eq_refl Hs)
      as (_ & Hdirect & _).
    apply (Hdirect (Example.msg "m4" 40) eq_refl eq_refl eq_refl).
    repeat constructor; unfold timestamp_le; cbn; lia.
  - destruct (@store_order_kept_when_timestamps_increase e Example.props
                (Example.chat sorted_history "why?" true) Example.bob eq_refl Hs)
      as (_ & _ & Hquery).
    apply (Hquery Example.reply eq_refl eq_refl eq_refl).
    split; [repeat constructor; cbn; lia | cbn; lia].
Defined.

(* ================================================================== *)
(** ** Properties of the source list *)

(** C7. For a message of rag-assistant with N sources the list shows the
    first min(N, 3) sources in order, each with the text of its type;
    when N > 3 one more item follows, reading "+{N-3} more sources", and
    none otherwise; a source whose type is neither message nor
    document_chunk shows the text "Unknown source". *)
Theorem sources_rendering (message : Message.t) (sources : list Source.t) :
  Message.sender_id message = `"rag-assistant" ->
  Message.sources message = Some sources ->
  let N := List.length sources in
  exists items summary,
    renderSources message = Some (items ++ summary) /\
    List.length items = Nat.min N 3 /\
    (forall i source,
       (i < 3)%nat -> nth_error sources i = Some source ->
       nth_error items i =
       Some {| key := Some i; className := Some `"truncate";
               text := renderSource source |}) /\
    ((3 < N)%nat ->
     summary = [{| key := None; className := None;
                   text := `"+" ++ JsString.ofZ (Z.of_nat N - 3)
                            ++ `" more sources" |}]) /\
    ((N <= 3)%nat -> summary = []) /\
    (forall source,
       Source.type source <> `"message" ->
       Source.type source <> `"document_chunk" ->
       renderSource source = `"Unknown source").
Proof.
  intros Hsender Hsources N.
  unfold renderSources, renderSourceList.
  rewrite Hsender, JsStringFacts.eqb_refl, Hsources. fold N.
  eexists _, _. split; [reflexivity|]. split; [|split; [|split; [|split]]].
  - rewrite map_idx_length, length_firstn. subst N. lia.
  - intros i source Hi Hnth.
    assert (Hfirst : nth_error (firstn 3 sources) i = Some source).
    { rewrite nth_error_firstn.
      destruct (Nat.ltb_spec i 3) as [_|Hge]; [exact Hnth | lia]. }
    rewrite (map_idx_nth_error _ _ 0 i Hfirst). reflexivity.
  - intros H. apply Nat.ltb_lt in H. rewrite H. reflexivity.
  - intros H. destruct (Nat.ltb_spec 3 N) as [Hlt|_]; [lia | reflexivity].
  - intros source Hm Hd. unfold renderSource.
    apply JsStringFacts.eqb_neq in Hm, Hd. rewrite Hm, Hd. reflexivity.
Qed.

Lemma sources_rendering_witness :
  exists items summary,
    renderSources Example.answerMessage = Some (items ++ summary) /\
    List.length items = 3%nat /\
    nth_error items 2 =
      Some {| key := Some 2%nat; className := Some `"truncate";
              text := `"Unknown source" |} /\
    summary = [{| key := None; className := None;
                  text := `"+2 more sources" |}].
Proof.
  destruct (@sources_rendering Example.answerMessage Example.fiveSources
              eq_refl eq_refl)
    as (items & summary & Hr & Hlen & Hitems & Hmore & _ & Hunknown).
  exists items, summary. split; [exact Hr|]. split; [exact Hlen|]. split.
  - rewrite (Hitems 2%nat Example.link); [|lia|reflexivity].
    rewrite Hunknown; [reflexivity | discriminate | discriminate].
  - apply Hmore. cbn. lia.
Defined.

(* ================================================================== *)
(** ** Properties of the routing *)

(** C8. The session guard redirects to /login whenever the session token
    is absent or empty and renders the protected content whenever a token
    is present; it is a total function of the token read at the render,
    so each render decides anew, before the children are rendered, and
    no exception is involved. *)
Theorem session_guard (token : option jsstring) (children : Router.Element) :
  (token = None \/ token = Some [] ->
   Router.ProtectedRoute token children = Router.Redirect `"/login") /\
  (forall t, token = Some t -> t <> [] ->
   Router.ProtectedRoute token children = Router.Content children).
Proof.
  split.
  - intros [-> | ->]; reflexivity.
  - intros [|c t] -> Ht; [congruence | reflexivity].
Qed.

Lemma session_guard_witness :
  Router.ProtectedRoute None Router.Layout = Router.Redirect `"/login" /\
  Router.ProtectedRoute (Some []) Router.Layout = Router.Redirect `"/login" /\
  Router.ProtectedRoute (Some `"secret") Router.Layout = Router.Content Router.Layout.
Proof.
  split; [|split].
  - apply (proj1 (session_guard None Router.Layout)). left; reflexivity.
  - apply (proj1 (session_guard (Some []) Router.Layout)). right; reflexivity.
  - apply (proj2 (session_guard (Some `"secret") Router.Layout) `"secret").
    + reflexivity.
    + discriminate.
Defined.

(** C9. At the root path the table of [App] selects the index route,
    whose element is the redirect to /dashboard, under the route of the
    guarded layout; but [Layout] renders its children, of which [App]
    gives it none, and no outlet, so the redirect is never mounted.
    Whatever the session token, the root path is not redirected to
    /dashboard, as the claim has it: with a token the bare layout is
    shown, without one the guard redirects to /login. *)
Theorem root_path_is_not_redirected (token : option jsstring) :
  Router.matchedElements `"/" =
    Some [Router.Protected Router.Layout; toDashboard] /\
  render token `"/" <> Some (Redirected `"/dashboard") /\
  render token `"/" =
    Some match Router.ProtectedRoute token Router.Layout with
         | Router.Redirect to => Redirected to
         | Router.Content _ => Showing [Router.Layout]
         end.
Proof.
  assert (Hchain : Router.matchedElements `"/" =
                   Some [Router.Protected Router.Layout; toDashboard])
    by (vm_compute; reflexivity).
  split; [exact Hchain|].
  unfold render. rewrite Hchain. cbn [option_map renderChain toDashboard].
  destruct token as [[|c t]|]; split;
    solve [ intros H; vm_compute in H; discriminate H | reflexivity ].
Qed.

(** The root path with a session: the layout alone, no redirect. *)
Example root_path_with_session :
  render (Some `"secret") `"/" = Some (Showing [Router.Layout]).
Proof. vm_compute. reflexivity. Qed.

(* ================================================================== *)
(** ** Further properties of the chat pipeline *)

(** The decimal rendering of two numbers is the same only for the same
    number. *)
Lemma ofZ_inj (a b : Z) : JsString.ofZ a = JsString.ofZ b -> a = b.
Proof.
  unfold JsString.ofZ, JsString.lit. intros H.
  assert (Hascii : list_ascii_of_string (NilZero.string_of_int (Z.to_int a)) =
                   list_ascii_of_string (NilZero.string_of_int (Z.to_int b))).
  { revert H.
    generalize (list_ascii_of_string (NilZero.string_of_int (Z.to_int a))).
    generalize (list_ascii_of_string (NilZero.string_of_int (Z.to_int b))).
    intros l2 l1. revert l2.
    induction l1 as [|x l1 IH]; intros [|y l2]; simpl; try discriminate.
    - reflexivity.
    - intros [= Hxy Hl]. f_equal; [|exact (IH _ Hl)].
      rewrite <- (ascii_N_embedding x), <- (ascii_N_embedding y), Hxy.
      reflexivity. }
  apply (f_equal string_of_list_ascii) in Hascii.
  rewrite !string_of_list_ascii_of_string in Hascii.
  assert (Hnorm : forall z, Z.to_int z <> Decimal.Pos Decimal.Nil /\
                            Z.to_int z <> Decimal.Neg Decimal.Nil).
  { intros z. pose proof (DecimalZ.to_of (Z.to_int z)) as Hz.
    rewrite DecimalZ.of_to in Hz.
    split; intros E; rewrite E in Hz; vm_compute in Hz; discriminate. }
  pose proof (NilZero.isi (Z.to_int a) (proj1 (Hnorm a)) (proj2 (Hnorm a))) as Ha.
  pose proof (NilZero.isi (Z.to_int b) (proj1 (Hnorm b)) (proj2 (Hnorm b))) as Hb.
  rewrite Hascii in Ha. rewrite Ha in Hb. injection Hb as Hab.
  rewrite <- (DecimalZ.of_to a), <- (DecimalZ.of_to b), Hab. reflexivity.
Qed.

Lemma JsString_eqb_spec (a b : jsstring) :
  BoolSpec (a = b) (a <> b) (JsString.eqb a b).
Proof.
  destruct (JsString.eqb a b) eqn:E; constructor.
  - apply JsStringFacts.eqb_eq, E.
  - apply JsStringFacts.eqb_neq, E.
Qed.

Lemma array_sort_sorted_id (l : list Message.t) :
  Forall has_instant l -> sorted_by_timestamp l -> array_sort byTimestamp l = l.
Proof.
  intros Hv Hs. symmetry.
  apply array_sort_unique; auto using Permutation_refl.
Qed.

(** X1. The effect that loads the history does nothing when the
    recipient is missing or the recipient type is missing or empty: no
    request, no change of any cell. *)
Theorem load_skipped_without_recipient (env : Env) (props : Props) (w : World) :
  recipient props = None \/ recipientType props = None \/
  recipientType props = Some [] ->
  recipientEffect env props w = (Ok tt, w).
Proof.
  unfold recipientEffect. intros [H | [H | H]]; rewrite H.
  - reflexivity.
  - destruct (recipient props); reflexivity.
  - destruct (recipient props); reflexivity.
Qed.

Lemma load_skipped_without_recipient_witness :
  recipientEffect (Example.env (Example.online 40) 1000)
    {| currentUser := Example.alice; recipient := Some Example.bob;
       recipientType := Some [] |}
    (Example.chat Example.history "draft" false)
  = (Ok tt, Example.chat Example.history "draft" false).
Proof.
  apply load_skipped_without_recipient. right; right; reflexivity.
Defined.

(** X2. [fetchMessages] never throws to its caller and leaves the input
    text, the mode, the token and the clock alone on every path; it
    issues one request when the recipient is there and none when the
    recipient is null. *)
Theorem fetchMessages_frame (env : Env) (props : Props) (w : World) :
  let w' := snd (fetchMessages env props w) in
  fst (fetchMessages env props w) = Ok tt /\
  newMessage (state w') = newMessage (state w) /\
  queryMode (state w') = queryMode (state w) /\
  token w' = token w /\
  ticks w' = ticks w /\
  requests (log w') =
  requests (log w) ++ match recipient props with
                      | Some r => [historyRequest props r w]
                      | None => []
                      end.
Proof.
  destruct w as [[ms nm ld qm] tok tk lg]. unfold requests.
  run_handler. destruct (recipient props) as [r|]; cbn.
  - destruct (get_api_messages _ _); cbn;
      rewrite ?flat_map_app; cbn; rewrite ?app_nil_r; repeat split; reflexivity.
  - rewrite ?flat_map_app; cbn; rewrite ?app_nil_r; repeat split; reflexivity.
Qed.

(** X3. A history the backend returns already in ascending order is
    stored exactly as received. *)
Theorem ordered_history_kept
  (env : Env) (props : Props) (w : World) (r : Recipient.t)
  (msgs : list Message.t) :
  recipient props = Some r ->
  get_api_messages (backend env) (historyRequest props r w) = Some msgs ->
  Forall has_instant msgs ->
  sorted_by_timestamp msgs ->
  messages (state (snd (fetchMessages env props w))) = msgs.
Proof.
  intros Hr Hget Hv Hs.
  rewrite (fetchMessages_resolved env props w Hr Hget). cbn [snd state messages].
  apply array_sort_sorted_id; assumption.
Qed.

Lemma ordered_history_kept_witness :
  let ordered := [Example.msg "m1" 10; Example.msg "m1b" 10; Example.msg "m2" 20] in
  let b := {| get_api_messages := fun _ => Some ordered;
              post_api_rag_query := fun _ => None;
              post_api_messages := fun _ => None |} in
  messages (state (snd (fetchMessages (Example.env b 1000) Example.props
                          (Example.chat [] "" false)))) = ordered.
Proof.
  intros ordered b.
  apply (@ordered_history_kept (Example.env b 1000) Example.props
           (Example.chat [] "" false) Example.bob ordered).
  - reflexivity.
  - reflexivity.
  - repeat constructor; discriminate.
  - repeat constructor; unfold timestamp_le; cbn; lia.
Defined.

(** X4. Loading the history keeps the arrival order among messages of
    the same timestamp: for every instant, the messages of that instant
    appear in the store in the order of the response. *)
Theorem history_ties_keep_arrival_order
  (env : Env) (props : Props) (w : World) (r : Recipient.t)
  (msgs : list Message.t) (t : Z) :
  recipient props = Some r ->
  get_api_messages (backend env) (historyRequest props r w) = Some msgs ->
  Forall has_instant msgs ->
  filter (sameInstant t) (messages (state (snd (fetchMessages env props w))))
  = filter (sameInstant t) msgs.
Proof.
  intros Hr Hget Hv.
  rewrite (fetchMessages_resolved env props w Hr Hget). cbn [snd state messages].
  apply array_sort_stable, Hv.
Qed.

Lemma history_ties_keep_arrival_order_witness :
  filter (sameInstant 10)
    (messages (state (snd (fetchMessages (Example.env (Example.online 40) 1000)
                             Example.props (Example.chat [] "" false)))))
  = [Example.msg "m1" 10; Example.msg "m1b" 10].
Proof.
  rewrite (@history_ties_keep_arrival_order
             (Example.env (Example.online 40) 1000) Example.props
             (Example.chat [] "" false) Example.bob Example.history 10
             eq_refl eq_refl).
  - reflexivity.
  - repeat constructor; discriminate.
Defined.

(** X5. [sendMessage] never throws to its caller and never changes the
    mode or the token; after a submission that was not ignored the
    loading flag is off, sent or failed; and with a recipient such a
    submission issues exactly one request, to the endpoint of the mode,
    carrying the input text as typed, untrimmed. *)
Theorem sendMessage_frame (env : Env) (props : Props) (w : World) :
  let w' := onSubmit env props w in
  fst (sendMessage env props (state w) w) = Ok tt /\
  queryMode (state w') = queryMode (state w) /\
  token w' = token w /\
  (JsString.blank (newMessage (state w)) = false ->
   loading (state w') = false) /\
  (forall r,
     JsString.blank (newMessage (state w)) = false ->
     recipient props = Some r ->
     requests (log w') =
     requests (log w) ++ [if queryMode (state w)
                          then PostRagQuery (newMessage (state w)) (bearer (token w))
                          else PostMessage (newMessage (state w)) (Recipient.id r)
                                 (recipientType props) (bearer (token w))]).
Proof.
  destruct w as [[ms nm ld qm] tok tk lg]. unfold requests.
  run_handler. rewrite guard_blank.
  destruct (JsString.blank nm); cbn.
  - repeat split; try reflexivity; discriminate.
  - destruct qm; cbn.
    + destruct (post_api_rag_query _ _); cbn;
        destruct (recipient props) as [r0|]; cbn;
        rewrite ?flat_map_app; cbn; rewrite ?app_nil_r;
        repeat split; try reflexivity; intros; try discriminate; reflexivity.
    + destruct (recipient props) as [r0|]; cbn.
      * destruct (post_api_messages _ _); cbn;
          rewrite ?flat_map_app; cbn; rewrite ?app_nil_r;
          repeat split; try reflexivity; intros r _ [= <-]; reflexivity.
      * rewrite ?flat_map_app; cbn; rewrite ?app_nil_r;
          repeat split; try reflexivity; intros; discriminate.
Qed.

Lemma sendMessage_frame_witness :
  let w := Example.chat Example.history "  hi " false in
  let w' := onSubmit (Example.env Example.offline 1000) Example.props w in
  loading (state w') = false /\
  requests (log w') =
  [PostMessage `"  hi " `"u2" (Some `"user") `"Bearer secret"].
Proof.
  intros w w'.
  destruct (sendMessage_frame (Example.env Example.offline 1000) Example.props w)
    as (_ & _ & _ & Hl & Hreq).
  split.
  - apply Hl. reflexivity.
  - apply (Hreq Example.bob); reflexivity.
Defined.

(** X6. With a null recipient a submission always fails and leaves the
    store and the input text as they were; in query mode the query has
    nevertheless been sent to the backend, whose answer is dropped,
    while in direct mode no request is issued at all. *)
Theorem send_without_recipient (env : Env) (props : Props) (w : World) :
  JsString.blank (newMessage (state w)) = false ->
  recipient props = None ->
  let w' := onSubmit env props w in
  (exists e, outcome env props w = Failed e) /\
  messages (state w') = messages (state w) /\
  newMessage (state w') = newMessage (state w) /\
  requests (log w') =
  requests (log w) ++ (if queryMode (state w) then [queryRequest w] else []).
Proof.
  destruct w as [[ms nm ld qm] tok tk lg]. unfold requests. cbn [state newMessage].
  intros Hb Hr. run_handler. rewrite guard_blank, Hb, Hr. cbn.
  destruct qm; cbn.
  - destruct (post_api_rag_query _ _); cbn;
      rewrite ?flat_map_app; cbn; rewrite ?app_nil_r; repeat split; eauto.
  - rewrite ?flat_map_app; cbn; rewrite ?app_nil_r; repeat split; eauto.
Qed.

Lemma send_without_recipient_witness :
  let props := {| currentUser := Example.alice; recipient := None;
                  recipientType := Some `"user" |} in
  let w := Example.chat Example.history "why?" true in
  let w' := onSubmit (Example.env (Example.online 40) 1000) props w in
  messages (state w') = Example.history /\
  newMessage (state w') = `"why?" /\
  requests (log w') = [PostRagQuery `"why?" `"Bearer secret"].
Proof.
  intros props w w'.
  destruct (@send_without_recipient (Example.env (Example.online 40) 1000)
              props w eq_refl eq_refl) as (_ & Hm & Hn & Hreq).
  repeat split; assumption.
Defined.

(** X7. The two messages a sent query appends never share their id; the
    echoes of two sent queries have the same id exactly when the clock
    gave the same reading at both, so two queries within one millisecond
    get the same temporary id. *)
Theorem query_ids
  (env : Env) (props : Props) (w1 w2 : World) (r : Recipient.t)
  (d1 d2 : RagData) :
  recipient props = Some r ->
  JsString.blank (newMessage (state w1)) = false ->
  queryMode (state w1) = true ->
  post_api_rag_query (backend env) (queryRequest w1) = Some d1 ->
  JsString.blank (newMessage (state w2)) = false ->
  queryMode (state w2) = true ->
  post_api_rag_query (backend env) (queryRequest w2) = Some d2 ->
  exists e1 a1 e2 a2,
    messages (state (onSubmit env props w1)) = messages (state w1) ++ [e1; a1] /\
    messages (state (onSubmit env props w2)) = messages (state w2) ++ [e2; a2] /\
    Message.id e1 <> Message.id a1 /\
    (Message.id e1 = Message.id e2 <->
     clock env (ticks w1) = clock env (ticks w2)).
Proof.
  intros Hr Hb1 Hq1 Hp1 Hb2 Hq2 Hp2.
  exists (echoOf env props r w1), (answerOf env r d1 w1),
         (echoOf env props r w2), (answerOf env r d2 w2).
  rewrite (onSubmit_query env props w1 Hb1 Hq1 Hr Hp1).
  rewrite (onSubmit_query env props w2 Hb2 Hq2 Hr Hp2).
  split; [reflexivity|]. split; [reflexivity|]. split.
  - cbn [echoOf answerOf Message.id]. intros H.
    apply (f_equal (@hd N 0%N)) in H. vm_compute in H. discriminate.
  - cbn [echoOf Message.id]. split.
    + intros H. apply app_inv_head in H. apply ofZ_inj, H.
    + intros ->. reflexivity.
Qed.

Lemma query_ids_witness :
  let env := {| backend := Example.online 40; clock := fun _ => 1000%Z |} in
  let w1 := Example.chat [] "why?" true in
  let w2 := Example.chat [] "how?" true in
  exists e1 a1 e2 a2,
    messages (state (onSubmit env Example.props w1)) = [e1; a1] /\
    messages (state (onSubmit env Example.props w2)) = [e2; a2] /\
    Message.id e1 <> Message.id a1 /\
    Message.id e1 = Message.id e2.
Proof.
  intros env w1 w2.
  destruct (@query_ids env Example.props w1 w2 Example.bob Example.reply
              Example.reply eq_refl eq_refl eq_refl eq_refl eq_refl eq_refl
              eq_refl)
    as (e1 & a1 & e2 & a2 & H1 & H2 & Hne & Hiff).
  exists e1, a1, e2, a2. repeat split; try assumption.
  apply Hiff. reflexivity.
Defined.

(** X8. After a sent query, when the id of the current user is not
    rag-assistant, the pane shows the former bubbles followed by the
    echo as a message of the current user (right side, blue, no sender
    label, no sources) and the answer as a message of the assistant
    (left side, green, no sender label) with the list of its sources. *)
Theorem sent_query_rendered
  (env : Env) (props : Props) (w : World) (r : Recipient.t) (d : RagData) :
  JsString.blank (newMessage (state w)) = false ->
  queryMode (state w) = true ->
  recipient props = Some r ->
  post_api_rag_query (backend env) (queryRequest w) = Some d ->
  User.id (currentUser props) <> `"rag-assistant" ->
  renderPane props (state (onSubmit env props w)) =
  MessageList
    (map (renderMessage props) (messages (state w)) ++
     [ {| rowClass := `"justify-end";
          bubbleClass := `"bg-blue-500 text-white";
          senderLabel := None;
          body := newMessage (state w);
          sourcesBlock := None |};
       {| rowClass := `"justify-start";
          bubbleClass := `"bg-green-100 border border-green-300";
          senderLabel := None;
          body := answer d;
          sourcesBlock := option_map renderSourceList (rag_sources d) |} ]).
Proof.
  intros Hb Hq Hr Hp Hme.
  rewrite (onSubmit_query env props w Hb Hq Hr Hp).
  unfold renderPane. cbn [state messages loading]. cbn [andb].
  rewrite map_app. cbn [map]. f_equal. f_equal.
  assert (Hown : JsString.eqb (User.id (currentUser props))
                   (User.id (currentUser props)) = true)
    by apply JsStringFacts.eqb_refl.
  assert (Hrag : JsString.eqb (User.id (currentUser props)) `"rag-assistant" = false)
    by (apply JsStringFacts.eqb_neq; exact Hme).
  assert (Hrag' : JsString.eqb `"rag-assistant" (User.id (currentUser props)) = false)
    by (apply JsStringFacts.eqb_neq; congruence).
  unfold renderMessage, renderSources, echoOf, answerOf.
  cbn [Message.sender_id Message.content Message.sources Message.sender_name].
  rewrite Hown, Hrag, Hrag', JsStringFacts.eqb_refl. cbn [negb andb].
  destruct (rag_sources d); reflexivity.
Qed.

Lemma sent_query_rendered_witness :
  exists bubbles answerBubble,
    renderPane Example.props
      (state (onSubmit (Example.env (Example.online 40) 1000) Example.props
                (Example.chat [] "why?" true)))
    = MessageList (bubbles ++ [answerBubble]) /\
    sourcesBlock answerBubble = Some (renderSourceList Example.fiveSources).
Proof.
  eexists _, _. split.
  - rewrite (@sent_query_rendered (Example.env (Example.online 40) 1000)
               Example.props (Example.chat [] "why?" true) Example.bob
               Example.reply eq_refl eq_refl eq_refl eq_refl).
    + cbn [map app Example.chat state messages].
      change (?a :: ?b :: nil) with ([a] ++ [b]). reflexivity.
    + discriminate.
  - reflexivity.
Defined.

(** X9. A bubble carries a sender label exactly when the message comes
    from someone other than the current user and the assistant; the
    label is the sender name, or the text User when the name is missing
    or empty, so it is never empty. *)
Theorem sender_label (props : Props) (m : Message.t) :
  (senderLabel (renderMessage props m) = None <->
   Message.sender_id m = User.id (currentUser props) \/
   Message.sender_id m = `"rag-assistant") /\
  (forall l, senderLabel (renderMessage props m) = Some l ->
     l <> [] /\
     (Message.sender_name m = Some l \/
      l = `"User" /\ (Message.sender_name m = None \/ Message.sender_name m = Some []))).
Proof.
  unfold renderMessage. cbn [senderLabel].
  destruct (JsString_eqb_spec (Message.sender_id m) (User.id (currentUser props)))
    as [Eo|Eo];
    destruct (JsString_eqb_spec (Message.sender_id m) `"rag-assistant") as [Er|Er];
    cbn [negb andb].
  1-3: split; [split; auto | intros l; discriminate].
  split.
  - split; [discriminate | intros [H | H]; contradiction].
  - intros l [= <-]. unfold orElse.
    destruct (Message.sender_name m) as [[|c s]|]; split;
      try discriminate; auto.
Qed.

Lemma sender_label_witness :
  senderLabel (renderMessage Example.props
                 {| Message.id := `"m9"; Message.content := `"hello";
                    Message.sender_id := `"u3"; Message.recipient_id := `"u1";
                    Message.timestamp := Some 5%Z; Message.sender_name := Some [];
                    Message.sources := None |})
  = Some `"User".
Proof.
  destruct (sender_label Example.props
              {| Message.id := `"m9"; Message.content := `"hello";
                 Message.sender_id := `"u3"; Message.recipient_id := `"u1";
                 Message.timestamp := Some 5%Z; Message.sender_name := Some [];
                 Message.sources := None |}) as [_ Hl].
  destruct (Hl `"User" eq_refl) as [_ [H | [H _]]]; [discriminate H | reflexivity].
Defined.

(** X19. A sent direct message is appended to the list the render
    captured, not to the store of the moment: what was put in the store
    after that render is lost when the send completes. *)
Theorem send_appends_to_captured_list
  (env : Env) (props : Props) (render : State) (w : World)
  (r : Recipient.t) (m : Message.t) :
  JsString.blank (newMessage render) = false ->
  queryMode render = false ->
  recipient props = Some r ->
  post_api_messages (backend env)
    (PostMessage (newMessage render) (Recipient.id r) (recipientType props)
       (bearer (token w))) = Some m ->
  messages (state (snd (sendMessage env props render w)))
  = messages render ++ [m].
Proof.
  destruct w as [[ms nm ld qm] tok tk lg]. cbn [token].
  intros Hb Hq Hr Hp. run_handler. rewrite guard_blank, Hb, Hq, Hr. cbn.
  rewrite Hp. reflexivity.
Qed.

Lemma send_appends_to_captured_list_witness :
  let render := state (Example.chat [Example.msg "m1" 10] "hi" false) in
  let w := Example.chat [Example.msg "m1" 10; Example.msg "m2" 20] "hi" false in
  messages (state (snd (sendMessage (Example.env (Example.online 40) 1000)
                          Example.props render w)))
  = [Example.msg "m1" 10; Example.msg "m4" 40].
Proof.
  intros render w.
  apply (@send_appends_to_captured_list (Example.env (Example.online 40) 1000)
           Example.props render w Example.bob (Example.msg "m4" 40));
    reflexivity.
Defined.

(* ================================================================== *)
(** ** Properties of the group form *)

Module CreateGroupFacts.

Import CreateGroup.

Ltac run_submit :=
  unfold onSubmit, handleSubmit, try_catch_finally, axios_post, postOf,
    authorization_header, navigate, setError, setLoading, modify_state, emit,
    bind, ret, posts, navigations in *;
  cbn.

(** X10. Submitting the group form with an empty or blank name only
    sets the error to the text Group name is required, replacing any
    former error: nothing is posted, the router does not move, and the
    fields and the loading flag stay as they were. *)
Theorem create_group_requires_name (backend : Backend) (w : World) :
  JsString.blank (groupName (state w)) = true ->
  let w' := onSubmit backend w in
  fst (handleSubmit backend (state w) w) = inl tt /\
  error (state w') = `"Group name is required" /\
  posts (log w') = posts (log w) /\
  navigations (log w') = navigations (log w) /\
  location w' = location w /\
  groupName (state w') = groupName (state w) /\
  description (state w') = description (state w) /\
  privacy (state w') = privacy (state w) /\
  loading (state w') = loading (state w).
Proof.
  destruct w as [[gn ds pv er ld] tok loc lg]. cbn [state groupName].
  intros Hb. run_submit. rewrite guard_blank, Hb. cbn.
  rewrite !flat_map_app. cbn. rewrite !app_nil_r. repeat split; reflexivity.
Qed.

Lemma create_group_requires_name_witness :
  let w' := onSubmit (ExampleGroup.creating "7")
              (ExampleGroup.form "  " "old error") in
  error (state w') = `"Group name is required" /\ posts (log w') = [].
Proof.
  intros w'.
  destruct (@create_group_requires_name (ExampleGroup.creating "7")
              (ExampleGroup.form "  " "old error") eq_refl)
    as (_ & He & Hp & _).
  exact (conj He Hp).
Defined.

Lemma onSubmit_created (backend : Backend) (w : World) (d : GroupData) :
  JsString.blank (groupName (state w)) = false ->
  backend (postOf w) = inl d ->
  onSubmit backend w =
  {| state := {| groupName := groupName (state w);
                 description := description (state w);
                 privacy := privacy (state w);
                 error := []; loading := false |};
     token := token w;
     location := `"/groups/" ++ id d;
     log := log w ++ [PreventDefault; Http (postOf w);
                      NavigateTo (`"/groups/" ++ id d)] |}.
Proof.
  destruct w as [[gn ds pv er ld] tok loc lg]. cbn [state groupName].
  intros Hb Hp. run_submit. cbn in Hp. rewrite guard_blank, Hb. cbn.
  rewrite Hp. cbn. rewrite <- !app_assoc. reflexivity.
Qed.

(** X11. When the name is not blank and the backend creates the group,
    the form has posted once, with the name as typed, the description,
    the privacy and the bearer header, the router has moved to
    /groups/ followed by the id of the new group, the error is cleared
    and the loading flag is off. *)
Theorem create_group_navigates (backend : Backend) (w : World) (d : GroupData) :
  JsString.blank (groupName (state w)) = false ->
  backend (postOf w) = inl d ->
  let w' := onSubmit backend w in
  fst (handleSubmit backend (state w) w) = inl tt /\
  location w' = `"/groups/" ++ id d /\
  navigations (log w') = navigations (log w) ++ [`"/groups/" ++ id d] /\
  posts (log w') = posts (log w) ++ [postOf w] /\
  error (state w') = [] /\
  loading (state w') = false /\
  groupName (state w') = groupName (state w) /\
  description (state w') = description (state w) /\
  privacy (state w') = privacy (state w).
Proof.
  destruct w as [[gn ds pv er ld] tok loc lg]. cbn [state groupName].
  intros Hb Hp. run_submit. cbn in Hp. rewrite guard_blank, Hb. cbn.
  rewrite Hp. cbn.
  rewrite !flat_map_app. cbn. rewrite !app_nil_r. repeat split; reflexivity.
Qed.

Lemma create_group_navigates_witness :
  let w' := onSubmit (ExampleGroup.creating "7") (ExampleGroup.form " chess " "old error") in
  location w' = `"/groups/7" /\ error (state w') = [] /\
  map formData (posts (log w')) =
  [[(`"name", `" chess "); (`"description", `"about"); (`"privacy", `"public")]].
Proof.
  intros w'.
  destruct (@create_group_navigates (ExampleGroup.creating "7")
              (ExampleGroup.form " chess " "old error")
              {| id := `"7" |} eq_refl eq_refl)
    as (_ & Hloc & _ & Hposts & Herr & _).
  split; [exact Hloc|]. split; [exact Herr|].
  subst w'. rewrite Hposts. reflexivity.
Defined.

(** X12. When the name is not blank and the backend rejects the
    request, the error becomes the detail of the rejection, or the text
    Failed to create group. Please try again. when the detail is missing
    or empty, so an error is always shown; the router does not move,
    the loading flag is off and the fields are kept. *)
Theorem create_group_failure (backend : Backend) (w : World) (e : AxiosError) :
  JsString.blank (groupName (state w)) = false ->
  backend (postOf w) = inr e ->
  let w' := onSubmit backend w in
  fst (handleSubmit backend (state w) w) = inl tt /\
  error (state w') =
    orElse (detail e) `"Failed to create group. Please try again." /\
  error (state w') <> [] /\
  location w' = location w /\
  navigations (log w') = navigations (log w) /\
  posts (log w') = posts (log w) ++ [postOf w] /\
  loading (state w') = false /\
  groupName (state w') = groupName (state w) /\
  description (state w') = description (state w) /\
  privacy (state w') = privacy (state w).
Proof.
  destruct w as [[gn ds pv er ld] tok loc lg]. cbn [state groupName].
  intros Hb Hp. run_submit. cbn in Hp. rewrite guard_blank, Hb. cbn.
  rewrite Hp. cbn.
  rewrite !flat_map_app. cbn. rewrite !app_nil_r.
  repeat split; try reflexivity.
  unfold orElse. destruct (detail e) as [[|c s]|]; discriminate.
Qed.

Lemma create_group_failure_witness :
  error (state (onSubmit (ExampleGroup.rejecting (Some `"Name taken"))
                  (ExampleGroup.form "chess" ""))) = `"Name taken" /\
  error (state (onSubmit (ExampleGroup.rejecting None)
                  (ExampleGroup.form "chess" "")))
  = `"Failed to create group. Please try again.".
Proof.
  split.
  - destruct (@create_group_failure (ExampleGroup.rejecting (Some `"Name taken"))
                (ExampleGroup.form "chess" "")
                {| detail := Some `"Name taken" |} eq_refl eq_refl)
      as (_ & He & _).
    exact He.
  - destruct (@create_group_failure (ExampleGroup.rejecting None)
                (ExampleGroup.form "chess" "")
                {| detail := None |} eq_refl eq_refl)
      as (_ & He & _).
    exact He.
Defined.

End CreateGroupFacts.

(* ================================================================== *)
(** ** Further properties of the routing *)

Module RouteChains.

Import Router.

Lemma ranked_chains :
  map (fun b => (path b, map (fun m => elementOf (route m)) (routesMeta b)))
      (rankRouteBranches (flattenRoutes App))
  = rankedChains.
Proof. vm_compute. reflexivity. Qed.

(** The matched chain is a first-match search in the ranked table. *)
Lemma matchedElements_table (p : jsstring) :
  matchedElements p =
  option_map snd (find (fun e => matchPath (fst e) p) rankedChains).
Proof.
  unfold matchedElements, matchRoutes. rewrite <- ranked_chains.
  induction (rankRouteBranches (flattenRoutes App)) as [|b bs IH];
    simpl; [reflexivity|].
  destruct (matchPath (path b) p); [reflexivity | exact IH].
Qed.

Ltac split_cases p :=
  repeat match goal with
    | |- context [if matchPath ?pat p then _ else _] =>
        destruct (matchPath pat p) eqn:?
    | H : context [if matchPath ?pat p then _ else _] |- _ =>
        destruct (matchPath pat p) eqn:?
    end.

(** X17. Whatever the pathname, the elements the table renders outside
    the session guard are the login page, the signup page and the
    fallback redirect only: every other match is a chain of the guarded
    layout and, inside it, a page or the redirect of the root. *)
Theorem pages_behind_guard (p : jsstring) (chain : list Element) :
  matchedElements p = Some chain ->
  chain = [LoginPage] \/ chain = [SignupPage] \/ chain = [toDashboard] \/
  exists e, chain = [Protected Layout; e] /\
            (e = toDashboard \/
             In e [Dashboard; CreateGroupPage; GroupPage;
                   CreateCommunityPage; CommunityPage]).
Proof.
  rewrite matchedElements_table. unfold rankedChains. cbn [find fst snd].
  split_cases p; cbn [option_map snd]; intros [= <-]; auto;
    try (right; right; right; eexists; split; [reflexivity|];
         simpl; auto 10).
Qed.

Lemma pages_behind_guard_witness :
  [Protected Layout; GroupPage] = [LoginPage] \/
  [Protected Layout; GroupPage] = [SignupPage] \/
  [Protected Layout; GroupPage] = [toDashboard] \/
  exists e, [Protected Layout; GroupPage] = [Protected Layout; e] /\
            (e = toDashboard \/
             In e [Dashboard; CreateGroupPage; GroupPage;
                   CreateCommunityPage; CommunityPage]).
Proof.
  apply (@pages_behind_guard `"/groups/42"). vm_compute. reflexivity.
Defined.

(** X18. The redirect of the fallback does not chain: every pathname
    other than the root that holds no line terminator ends on the route
    of a page after at most one redirect, since /dashboard, the target
    of the fallback, is the path of a page.  (At the root the table
    selects the index redirect inside the layout, which is not among
    the redirects followed here.) *)
Theorem redirects_settle (p : jsstring) :
  startsWithSlash p = true ->
  noLineTerminator p = true ->
  matchPath `"/" p = false ->
  exists page, follow 1 p = Some page /\ isPage page = true.
Proof.
  intros Hp Hlt Hroot. cbn [follow].
  rewrite matchedElements_table. unfold rankedChains. cbn [find fst snd].
  rewrite Hroot.
  split_cases p; cbn [option_map snd toDashboard];
    try (eexists; split; [vm_compute; reflexivity | reflexivity]).
  rewrite (RouterFacts.matchPath_splat p Hp Hlt) in *. discriminate.
Qed.

Lemma redirects_settle_witness :
  exists page, follow 1 `"/create/group" = Some page /\ isPage page = true.
Proof.
  apply redirects_settle; reflexivity.
Defined.

(** X20. Whatever the session token, a pathname without line terminator
    that is not the root and matches none of the page patterns is sent
    to /dashboard: its match is the fallback route alone, a top-level
    route, whose redirect is therefore mounted. *)
Theorem unmatched_path_redirected (token : option jsstring) (p : jsstring) :
  startsWithSlash p = true ->
  noLineTerminator p = true ->
  (forall pattern page, In (pattern, page) pagePatterns ->
     matchPath pattern p = false) ->
  matchPath `"/" p = false ->
  matchedElements p = Some [toDashboard] /\
  render token p = Some (Redirected `"/dashboard").
Proof.
  intros Hp Hlt Hnone Hroot.
  assert (Hchain : matchedElements p = Some [toDashboard]).
  { rewrite matchedElements_table. unfold rankedChains, pagePatterns in *.
    cbn [find fst snd].
    repeat match goal with
      | |- context [if matchPath ?pat p then _ else _] =>
          first [ rewrite Hroot
                | rewrite (RouterFacts.matchPath_splat p Hp Hlt)
                | match goal with
                  | |- context [if matchPath pat p then Some (_, [?page]) else _] =>
                      rewrite (Hnone pat page) by (simpl; tauto)
                  | |- context [if matchPath pat p then Some (_, [_; ?page]) else _] =>
                      rewrite (Hnone pat page) by (simpl; tauto)
                  end ]
      end.
    reflexivity. }
  split; [exact Hchain|]. unfold render. rewrite Hchain. reflexivity.
Qed.

Lemma unmatched_path_redirected_witness :
  matchedElements `"/profile" = Some [toDashboard] /\
  render None `"/profile" = Some (Redirected `"/dashboard").
Proof.
  apply unmatched_path_redirected; try reflexivity.
  intros pattern page Hin. simpl in Hin.
  repeat (destruct Hin as [[= <- <-]|Hin]; [vm_compute; reflexivity|]).
  destruct Hin.
Defined.

Lemma split_segment (s : jsstring) :
  forallb (fun c => negb (N.eqb c slash)) s = true -> split s = [s].
Proof.
  induction s as [|c s IH]; simpl; [reflexivity|].
  intros H. apply andb_true_iff in H as [Hc Hs].
  apply negb_true_iff in Hc. rewrite Hc, (IH Hs). reflexivity.
Qed.

Lemma isNameChar_not_slash (s : jsstring) :
  forallb isNameChar s = true ->
  forallb (fun c => negb (N.eqb c slash)) s = true.
Proof.
  induction s as [|c s IH]; simpl; [reflexivity|].
  intros H. apply andb_true_iff in H as [Hc Hs]. rewrite (IH Hs), andb_true_r.
  destruct (N.eqb_spec c slash) as [->|_]; [|reflexivity].
  vm_compute in Hc. discriminate.
Qed.

Lemma split_groups (id : jsstring) :
  isPlainSegment id = true -> split (`"/groups/" ++ id) = [[]; `"groups"; id].
Proof.
  unfold isPlainSegment. intros H. apply andb_true_iff in H as [_ H].
  apply isNameChar_not_slash in H.
  change (`"/groups/" ++ id)
    with (47 :: 103 :: 114 :: 111 :: 117 :: 112 :: 115 :: 47 :: id)%N.
  cbn [split N.eqb slash Pos.eqb].
  rewrite (split_segment id H). reflexivity.
Qed.

Lemma matchPath_two (pattern p x y : jsstring) (sa sb : Segment) :
  compilePath pattern = {| segments := [sa; sb]; splat := false |} ->
  split p = [[]; x; y] ->
  matchPath pattern p = matchSegment sa x && matchSegment sb y.
Proof.
  intros Hc Hs. unfold matchPath. rewrite Hc, Hs. cbn.
  rewrite andb_true_r. reflexivity.
Qed.

(** The route of the page of a group: /groups/ followed by one segment
    resolves to the page of that group inside the guarded layout, but
    for the segment create, in any case, which is the form. *)
Lemma group_route (id : jsstring) :
  isPlainSegment id = true ->
  matchedElements (`"/groups/" ++ id) =
  Some [Protected Layout;
        if JsString.eqb `"create" (toLowerCase id)
        then CreateGroupPage else GroupPage].
Proof.
  intros Hid. pose proof (split_groups id Hid) as Hs.
  rewrite matchedElements_table. unfold rankedChains. cbn [find fst snd].
  rewrite (@matchPath_two `"/groups/create" _ `"groups" id
             (Static `"groups") (Static `"create") eq_refl Hs).
  rewrite (@matchPath_two `"/communities/create" _ `"groups" id
             (Static `"communities") (Static `"create") eq_refl Hs).
  rewrite (@matchPath_two `"/groups/:groupId" _ `"groups" id
             (Static `"groups") (Param `"groupId") eq_refl Hs).
  change (matchSegment (Static `"groups") `"groups") with true.
  change (matchSegment (Static `"communities") `"groups") with false.
  cbn [andb matchSegment].
  change (toLowerCase `"create") with `"create".
  destruct (JsString.eqb `"create" (toLowerCase id)); [reflexivity|].
  unfold isPlainSegment in Hid. apply andb_true_iff in Hid as [Hne _].
  unfold isEmpty. rewrite Hne. reflexivity.
Qed.

(** X13. After the group form has created a group whose id is one
    plain path segment (letters, digits, dashes, underscores), the
    location it navigated to matches a route of the table: that of the
    page of the group inside the guarded layout, unless the id reads
    create, in any case, for which the match is the route of the form
    again. *)
Theorem created_group_route
  (backend : CreateGroup.Backend) (w : CreateGroup.World)
  (d : CreateGroup.GroupData) :
  JsString.blank (CreateGroup.groupName (CreateGroup.state w)) = false ->
  backend (CreateGroup.postOf w) = inl d ->
  isPlainSegment (CreateGroup.id d) = true ->
  matchedElements (CreateGroup.location (CreateGroup.onSubmit backend w)) =
  Some [Protected Layout;
        if JsString.eqb `"create" (toLowerCase (CreateGroup.id d))
        then CreateGroupPage else GroupPage].
Proof.
  intros Hb Hp Hid.
  rewrite (CreateGroupFacts.onSubmit_created backend w Hb Hp).
  cbn [CreateGroup.location]. apply group_route, Hid.
Qed.

Lemma created_group_route_witness :
  matchedElements
    (CreateGroup.location
       (CreateGroup.onSubmit (ExampleGroup.creating "7")
          (ExampleGroup.form "chess" ""))) = Some [Protected Layout; GroupPage] /\
  matchedElements
    (CreateGroup.location
       (CreateGroup.onSubmit (ExampleGroup.creating "Create")
          (ExampleGroup.form "chess" ""))) = Some [Protected Layout; CreateGroupPage].
Proof.
  split.
  - apply (@created_group_route (ExampleGroup.creating "7")
             (ExampleGroup.form "chess" "") {| CreateGroup.id := `"7" |});
      reflexivity.
  - apply (@created_group_route (ExampleGroup.creating "Create")
             (ExampleGroup.form "chess" "") {| CreateGroup.id := `"Create" |});
      reflexivity.
Defined.

End RouteChains.

(* ================================================================== *)
(** ** Properties of the layout *)

Module AppLayoutFacts.

Import AppLayout.

(** X14. Logging out removes the token, so that a later request would
    carry the header Bearer null, and moves to /login, which the table
    renders as the login page outside the guarded layout; the sidebar
    cell is kept, no navigation link is active there, and logging out
    again changes nothing. *)
Theorem logout_lands_on_login (w : World) :
  let w' := handleLogout w in
  token w' = None /\
  bearer (token w') = `"Bearer null" /\
  sidebarOpen w' = sidebarOpen w /\
  Router.matchedElements (pathname w') = Some [Router.LoginPage] /\
  (forall link, In link navLinks -> isActive w' link = false) /\
  handleLogout w' = w'.
Proof.
  cbv zeta. repeat split.
  intros link Hin. unfold isActive. cbn [handleLogout pathname].
  simpl in Hin.
  repeat (destruct Hin as [<- | Hin]; [vm_compute; reflexivity|]).
  destruct Hin.
Qed.



(** X16. Every link of the sidebar ends on the dashboard: /dashboard
    names its page, and the targets of the other links, among them
    those of New Group and New Community, match no page of the table
    and reach the dashboard through the fallback redirect. *)
Theorem sidebar_links_end_on_dashboard (link : jsstring) :
  In link Router.Layout_links ->
  follow 1 link = Some Router.Dashboard /\
  (link <> `"/dashboard" -> Router.resolve link = Some toDashboard).
Proof.
  intros Hin. simpl in Hin.
  repeat (destruct Hin as [<- | Hin];
          [split; [vm_compute; reflexivity|];
           first [ intros _; vm_compute; reflexivity
                 | intros H; exfalso; apply H; reflexivity ] |]).
  destruct Hin.
Qed.

Lemma sidebar_links_end_on_dashboard_witness :
  follow 1 `"/create/group" = Some Router.Dashboard /\
  Router.resolve `"/create/group" = Some toDashboard.
Proof.
  destruct (@sidebar_links_end_on_dashboard `"/create/group") as [Hf Hr].
  - simpl. auto 10.
  - split; [exact Hf|]. apply Hr. discriminate.
Defined.

End AppLayoutFacts.
